(** * doc-segment-to-text: the image-to-text dispatcher of [parsers/image_ocr.py]

    A shallow embedding of [ImageOCR.convert_img_to_txt] and of the methods it
    calls, together with the constant table of [utils/constants.py].

    - A Python [str] is a sequence of Unicode code points ([str] below).
    - A Python [bytes] object is a list of bytes.
    - The pre-trained models and remote services are opaque collaborators:
      fields of the [ImageOCR] object, each a function to an [outcome]
      (a returned value or a raised exception).
    - Logging and collaborator calls are recorded in a trace that is threaded
      through every method; an exception does not undo the trace. *)

From Stdlib Require Import List String Ascii NArith ZArith QArith Bool Arith Lia.
From Stdlib Require Import Strings.Byte.
Import ListNotations.

Local Close Scope Q_scope.
Local Open Scope string_scope.
Local Open Scope nat_scope.
Local Open Scope list_scope.

(** ** Python strings *)

(** A character is a Unicode code point. *)
Definition char := N.

Definition str := list char.

(** The [str] written by an ASCII literal of the source. *)
Definition lit (s : string) : str := map N_of_ascii (list_ascii_of_string s).

Fixpoint str_eqb (a b : str) : bool :=
  match a, b with
  | [], [] => true
  | x :: a', y :: b' => N.eqb x y && str_eqb a' b'
  | _, _ => false
  end.

(** [sep.join(parts)]. *)
Fixpoint join (sep : str) (parts : list str) : str :=
  match parts with
  | [] => []
  | [p] => p
  | p :: rest => p ++ sep ++ join sep rest
  end.

(** ** The fragment of Python's [re] used by the source

    The two patterns of [_convert_text_to_latex] are sequences of literal
    characters, the greedy class repetition [\s*] and the anchor [$]. *)

Module Re.

Inductive atom :=
| Chr (c : char)
| SpaceStar
| Dollar.

Definition pattern := list atom.

Definition is_meta (a : ascii) : bool :=
  existsb (Ascii.eqb a)
    ["."; "^"; "*"; "+"; "?"; "{"; "}"; "["; "]"; "("; ")"; "|"]%char.

Definition is_alnum (a : ascii) : bool :=
  let n := nat_of_ascii a in
  ((48 <=? n) && (n <=? 57)) || ((65 <=? n) && (n <=? 90))
  || ((97 <=? n) && (n <=? 122)).

(** The parser of pattern sources, restricted to the fragment: [\s*],
    an escaped punctuation character, [$], and plain characters.  Anything
    else is outside the fragment ([None]). *)
Fixpoint parse (p : list ascii) : option pattern :=
  match p with
  | [] => Some []
  | "\"%char :: "s"%char :: "*"%char :: r =>
      option_map (cons SpaceStar) (parse r)
  | "\"%char :: c :: r =>
      if is_alnum c then None
      else option_map (cons (Chr (N_of_ascii c))) (parse r)
  | "$"%char :: r => option_map (cons Dollar) (parse r)
  | c :: r =>
      if is_meta c then None
      else option_map (cons (Chr (N_of_ascii c))) (parse r)
  end.

Definition compile (p : string) : option pattern :=
  parse (list_ascii_of_string p).

(** [\s] on a [str] pattern: the code points for which [str.isspace]
    holds. *)
Definition is_space (c : char) : bool :=
  ((9 <=? c) && (c <=? 13) || (28 <=? c) && (c <=? 32)
   || (c =? 133) || (c =? 160) || (c =? 5760)
   || (8192 <=? c) && (c <=? 8202)
   || (c =? 8232) || (c =? 8233) || (c =? 8239) || (c =? 8287)
   || (c =? 12288))%N.

(** [$] without [re.MULTILINE]: the end of the string, or just before a
    newline that is the last character. *)
Definition at_end (s : str) : bool :=
  match s with
  | [] => true
  | [c] => (c =? 10)%N
  | _ => false
  end.

(** Match [p] at the start of [s]; the length of the match found by the
    backtracking search, [\s*] trying its longest repetition first. *)
Fixpoint match_here (p : pattern) (s : str) {struct p} : option nat :=
  match p with
  | [] => Some 0
  | Chr c :: p' =>
      match s with
      | x :: s' => if (x =? c)%N then option_map S (match_here p' s') else None
      | [] => None
      end
  | Dollar :: p' => if at_end s then match_here p' s else None
  | SpaceStar :: p' =>
      (fix star (s : str) : option nat :=
         match s with
         | x :: s' =>
             if is_space x then
               match star s' with
               | Some n => Some (S n)
               | None => match_here p' s
               end
             else match_here p' s
         | [] => match_here p' s
         end) s
  end.

(** Left-to-right replacement of the non-overlapping matches of a matcher
    [m] by [repl]; [skip] counts the characters of the current match still
    to be dropped.  A position where [m] finds no match, or only the empty
    one, keeps its character. *)
Fixpoint scan (m : str -> option nat) (repl : str) (skip : nat) (s : str) : str :=
  match s with
  | [] => []
  | c :: s' =>
      match skip with
      | S k => scan m repl k s'
      | O =>
          match m s with
          | Some (S k) => repl ++ scan m repl k s'
          | _ => c :: scan m repl 0 s'
          end
      end
  end.

(** [re.sub(pattern, repl, text)] for a pattern of the fragment whose
    matches are never empty and a replacement without escapes. *)
Definition sub (pat : string) (repl text : str) : str :=
  match compile pat with
  | Some p => scan (match_here p) repl 0 text
  | None => text
  end.

End Re.

(** ** [ImageOCR._convert_text_to_latex] *)

Definition PROMPT_ECHO_RE : string :=
  "User:\s*Extract mathematical expressions in LaTeX format\s*Assistant: 0>0>500>500>".

Definition TRAILING_RE : string := "\\, \.$".

Definition _convert_text_to_latex (text : str) : str :=
  let text := Re.sub PROMPT_ECHO_RE (lit "") text in
  let text := Re.sub TRAILING_RE (lit "") text in
  lit "$" ++ text ++ lit "$".

(** ** Values, exceptions and the constant table *)

Definition bytes := list byte.

(** A raised exception object: its class name and [str(e)].  The methods of
    section [Methods] are read for objects that are instances of [Exception];
    module [ByClass] reads the handlers with the class test. *)
Inductive exn := Exception (cls : string) (msg : str).

Definition str_of_exn (e : exn) : str :=
  match e with Exception _ msg => msg end.

(** A call either returns or raises. *)
Inductive outcome (A : Type) :=
| Returns (a : A)
| Raises (e : exn).
Arguments Returns {A} a.
Arguments Raises {A} e.

(** What [convert_img_to_txt] hands back: [None] or a [str]. *)
Inductive value :=
| VNone
| VStr (s : str).

(** A decoded image in mode RGB: its size and pixel buffer. *)
Record Image := { width : nat; height : nat; pixels : list (byte * byte * byte) }.

(** One entry of the classifier's output, [{"score": ..., "label": ...}].
    Scores are finite floats, compared exactly; they are held as rationals. *)
Record classification := { label : str; score : Q }.

(** One detection of the OCR engine, [(box, (text, confidence))]. *)
Record ocr_line := { box : list (list Q); text : str; confidence : Q }.

(** One page of an OCR result: [None] when nothing was detected. *)
Definition ocr_page := option (list ocr_line).

(** [utils/constants.py]: a dict, in insertion order. *)
Definition IMAGE_CATEGORY : list (str * list str) :=
  [ (lit "Graph",
      [ lit "a picture including curve graph";
        lit "a picture including linear graph";
        lit "a picture including bar graph" ]);
    (lit "Formula",
      [ lit "equilibrium expression for a chemical";
        lit "formula including fraction or symbols" ]);
    (lit "Text",
      [ lit "a formula including Korean";
        lit "a sentence including Hangul";
        lit "a photo including Hangul";
        lit "a sentence including English" ]) ].

(** [d.values()], and [chain] applied to the unpacked iterables. *)
Definition values {K V : Type} (d : list (K * V)) : list V := map snd d.

Definition chain {A : Type} (iterables : list (list A)) : list A := List.concat iterables.

(** [x in l] for a list of strings, where [x] is a string or [None]. *)
Definition py_in (x : option str) (l : list str) : bool :=
  match x with
  | Some s => existsb (str_eqb s) l
  | None => false
  end.

(** [a > b] on scores. *)
Definition score_gt (a b : Q) : bool := negb (Qle_bool a b).

(** The loop of [max(iterable, key=...)]: a later item replaces the current
    one only when its key is strictly greater. *)
Fixpoint max_loop (best : classification) (rest : list classification) : classification :=
  match rest with
  | [] => best
  | x :: rest' =>
      if score_gt (score x) (score best) then max_loop x rest'
      else max_loop best rest'
  end.

(** ** Traces and the method monad *)

Inductive level := INFO | ERROR.

Inductive event :=
| Log (lv : level) (msg : str)
| Call_b64decode (s : str)
| Call_Image_open (b : bytes)
| Call_image_classifier (image : Image) (candidate_labels : list str)
| Call_ocr (b : bytes)
| Call_formula_model (image : Image)
| Call_generate_content (b : bytes).

Definition trace := list event.

Definition M (A : Type) : Type := trace -> outcome A * trace.

Definition ret {A} (a : A) : M A := fun t => (Returns a, t).

Definition bind {A B} (m : M A) (f : A -> M B) : M B :=
  fun t =>
    match m t with
    | (Returns a, t') => f a t'
    | (Raises e, t') => (Raises e, t')
    end.

Definition raise {A} (e : exn) : M A := fun t => (Raises e, t).

(** [try: m  except Exception as e: h e], when everything raised is an
    instance of [Exception]; [ByClass.try_except] has the class test. *)
Definition try_except {A} (m : M A) (h : exn -> M A) : M A :=
  fun t =>
    match m t with
    | (Returns a, t') => (Returns a, t')
    | (Raises e, t') => h e t'
    end.

(** The result of a [try] block that is inspected after it. *)
Definition attempt {A} (m : M A) : M (A + exn) :=
  fun t =>
    match m t with
    | (Returns a, t') => (Returns (inl a), t')
    | (Raises e, t') => (Returns (inr e), t')
    end.

(** A call of a collaborator: recorded, then its outcome. *)
Definition invoke {A} (ev : event) (r : outcome A) : M A :=
  fun t => (r, t ++ [ev]).

Definition logger_info (msg : str) : M unit :=
  fun t => (Returns tt, t ++ [Log INFO msg]).

Definition logger_error (msg : str) : M unit :=
  fun t => (Returns tt, t ++ [Log ERROR msg]).

Declare Scope method_scope.
Delimit Scope method_scope with method.
Notation "x <- m ;; k" := (bind m (fun x => k))
  (at level 61, m at next level, right associativity) : method_scope.
Notation "m ;; k" := (bind m (fun _ => k))
  (at level 61, right associativity) : method_scope.
Local Open Scope method_scope.

(** [d[key]]. *)
Fixpoint getitem {V : Type} (d : list (str * V)) (key : str) : M V :=
  match d with
  | [] => raise (Exception "KeyError" (lit "'" ++ key ++ lit "'"))
  | (k, v) :: d' => if str_eqb k key then ret v else getitem d' key
  end.

(** [l[0]]. *)
Definition first_item {A : Type} (l : list A) : M A :=
  match l with
  | [] => raise (Exception "IndexError" (lit "list index out of range"))
  | x :: _ => ret x
  end.

(** Iterating over a value that may be [None]. *)
Definition iter {A : Type} (x : option (list A)) : M (list A) :=
  match x with
  | None => raise (Exception "TypeError" (lit "'NoneType' object is not iterable"))
  | Some l => ret l
  end.

(** [max(outputs, key=lambda x: x["score"])]. *)
Definition py_max (outputs : list classification) : M classification :=
  match outputs with
  | [] => raise (Exception "ValueError" (lit "max() arg is an empty sequence"))
  | x :: rest => ret (max_loop x rest)
  end.

(** ** The [ImageOCR] object and its methods *)

(** The handles built once by [__init__]:
    - [ocr_model]: the call [self.ocr_model.ocr(binary_image, cls=False)],
      a list of pages;
    - [image_classifier]: the zero-shot pipeline called on an image and the
      candidate labels, a list of scored labels;
    - [formula_model]: the processor, [generate] and [batch_decode] on the
      fixed prompt, a list of decoded texts;
    - [client]: [generate_content] on the fixed model and instruction, and
      the [text] of its response. *)
Record ImageOCR := {
  ocr_model : bytes -> outcome (list ocr_page);
  image_classifier : Image -> list str -> outcome (list classification);
  formula_model : Image -> outcome (list str);
  client : bytes -> outcome value
}.

Section Methods.

(** [base64.b64decode] and [Image.open(io.BytesIO(b)).convert("RGB")]. *)
Variable b64decode : str -> outcome bytes.
Variable Image_open : bytes -> outcome Image.

Definition _classificate_image (self : ImageOCR) (image : Image) : M (option str) :=
  try_except
    (let candidate_labels := chain (values IMAGE_CATEGORY) in
     outputs <- invoke (Call_image_classifier image candidate_labels)
                  (image_classifier self image candidate_labels) ;;
     best <- py_max outputs ;;
     let best_output := label best in
     logger_info (lit "classificate image: " ++ best_output) ;;
     ret (Some best_output))
    (fun e =>
       logger_error (lit "Failed classificate image: " ++ str_of_exn e) ;;
       ret None).

Definition _extract_formula_from_image (self : ImageOCR) (image : Image) : M str :=
  decoded <- invoke (Call_formula_model image) (formula_model self image) ;;
  generated_text <- first_item decoded ;;
  let latex_result := _convert_text_to_latex generated_text in
  ret latex_result.

Definition extract_text (self : ImageOCR) (binary_image : bytes) : M str :=
  ocr_result <- invoke (Call_ocr binary_image) (ocr_model self binary_image) ;;
  page <- first_item ocr_result ;;
  lines <- iter page ;;
  let texts := join (lit " ") (map text lines) in
  ret texts.

Definition get_caption_with_gemini (self : ImageOCR) (binary_image : bytes) : M value :=
  invoke (Call_generate_content binary_image) (client self binary_image).

Definition convert_img_to_txt (self : ImageOCR) (encode_image : str) : M value :=
  loaded <- attempt
    (binary_image <- invoke (Call_b64decode encode_image) (b64decode encode_image) ;;
     image <- invoke (Call_Image_open binary_image) (Image_open binary_image) ;;
     logger_info (lit "Success loading image") ;;
     ret (binary_image, image)) ;;
  match loaded with
  | inr e =>
      logger_error (lit "Failed loading image: " ++ str_of_exn e) ;;
      ret VNone
  | inl (binary_image, image) =>
      try_except
        (image_type <- _classificate_image self image ;;
         text_labels <- getitem IMAGE_CATEGORY (lit "Text") ;;
         if py_in image_type text_labels then
           texts <- extract_text self binary_image ;;
           ret (VStr texts)
         else
           formula_labels <- getitem IMAGE_CATEGORY (lit "Formula") ;;
           if py_in image_type formula_labels then
             latex <- _extract_formula_from_image self image ;;
             ret (VStr latex)
           else get_caption_with_gemini self binary_image)
        (fun _ => ret (VStr encode_image))
  end.

(** *** Notions used to state the properties *)

(** The input decodes to the bytes [binary_image] and the image [image]. *)
Definition decodes_to (encode_image : str) (binary_image : bytes) (image : Image) : Prop :=
  b64decode encode_image = Returns binary_image /\
  Image_open binary_image = Returns image.

(** What a successful first [try] block records. *)
Definition loading (encode_image : str) (binary_image : bytes) : trace :=
  [ Call_b64decode encode_image; Call_Image_open binary_image;
    Log INFO (lit "Success loading image") ].

(** The input fails to decode with exception [e], after the calls [calls]. *)
Definition decode_fails (encode_image : str) (e : exn) (calls : trace) : Prop :=
  (b64decode encode_image = Raises e /\ calls = [Call_b64decode encode_image])
  \/ (exists binary_image,
        b64decode encode_image = Returns binary_image /\
        Image_open binary_image = Raises e /\
        calls = [Call_b64decode encode_image; Call_Image_open binary_image]).

End Methods.

(** ** The post-processing steps, read directly

    The steps of [_convert_text_to_latex] written with direct operations on
    the text, to be compared with the method. *)

Definition USER : str := lit "User:".
Definition EXTRACT : str := lit "Extract mathematical expressions in LaTeX format".
Definition ASSISTANT : str := lit "Assistant: 0>0>500>500>".

(** The artifact [\, .] left at the end of the model's answer. *)
Definition ARTIFACT : str := lit "\, .".

Definition NEWLINE : char := 10%N.

(** The two patterns of the method, as atoms. *)
Definition PROMPT : Re.pattern :=
  map Re.Chr USER ++ Re.SpaceStar :: map Re.Chr EXTRACT
  ++ Re.SpaceStar :: map Re.Chr ASSISTANT ++ [].

Definition TRAILING : Re.pattern := map Re.Chr ARTIFACT ++ [Re.Dollar].

(** The rest of [s] after the literal [pre], when [s] starts with it. *)
Fixpoint strip_prefix (pre s : str) : option str :=
  match pre, s with
  | [], _ => Some s
  | c :: pre', x :: s' => if (x =? c)%N then strip_prefix pre' s' else None
  | _ :: _, [] => None
  end.

(** The number of leading whitespace characters of [s], and what follows. *)
Fixpoint skip_spaces (s : str) : nat * str :=
  match s with
  | x :: s' =>
      if Re.is_space x then let (n, r) := skip_spaces s' in (S n, r)
      else (0, s)
  | [] => (0, [])
  end.

(** The length of the prompt echo that starts [s], if one does: the three
    literal pieces of the template, with any run of whitespace between. *)
Definition echo_len (s : str) : option nat :=
  match strip_prefix USER s with
  | None => None
  | Some r1 =>
      let (n1, r1') := skip_spaces r1 in
      match strip_prefix EXTRACT r1' with
      | None => None
      | Some r2 =>
          let (n2, r2') := skip_spaces r2 in
          match strip_prefix ASSISTANT r2' with
          | None => None
          | Some _ =>
              Some (List.length USER + (n1 + (List.length EXTRACT
                    + (n2 + List.length ASSISTANT))))
          end
      end
  end.

(** The first substitution with the direct matcher in place of the
    pattern. *)
Definition remove_prompt_echo (text : str) : str :=
  Re.scan echo_len [] 0 text.

(** [text.endswith(suffix)] and [text[:-n]]. *)
Definition endswith (text suffix : str) : bool :=
  (List.length suffix <=? List.length text)
  && str_eqb (skipn (List.length text - List.length suffix) text) suffix.

Definition drop_last (n : nat) (text : str) : str :=
  firstn (List.length text - n) text.

(** Step 2 as the specification words it: an artifact that ends the string
    is removed. *)
Definition remove_artifact_at_end (text : str) : str :=
  if endswith text ARTIFACT then drop_last 4 text else text.

(** Step 2 as the method performs it: the artifact is removed when it ends
    the string, and also when only a final newline follows it (the newline
    stays). *)
Definition remove_trailing_artifact (text : str) : str :=
  if endswith text ARTIFACT then drop_last 4 text
  else if endswith text (ARTIFACT ++ [NEWLINE]) then drop_last 5 text ++ [NEWLINE]
  else text.

(** Step 3: the unconditional wrapping. *)
Definition wrap_dollars (text : str) : str := lit "$" ++ text ++ lit "$".

(** A prompt echo: the template with whitespace runs [ws1] and [ws2]. *)
Definition prompt_echo (m : str) : Prop :=
  exists ws1 ws2,
    forallb Re.is_space ws1 = true /\ forallb Re.is_space ws2 = true /\
    m = USER ++ ws1 ++ EXTRACT ++ ws2 ++ ASSISTANT.

(** ** Categories, branches and traces *)

(** The label list of a category of the table. *)
Definition labels_of (category : string) : list str :=
  match find (fun kv => str_eqb (fst kv) (lit category)) IMAGE_CATEGORY with
  | Some kv => snd kv
  | None => []
  end.

(** The candidate labels handed to the classifier. *)
Definition candidate_labels : list str := chain (values IMAGE_CATEGORY).

(** The classifier answers for [image], and [max] selects the label [l]. *)
Definition classified_as (self : ImageOCR) (image : Image) (l : str) : Prop :=
  exists x rest,
    image_classifier self image candidate_labels = Returns (x :: rest) /\
    label (max_loop x rest) = l.

(** The entry [e] at index [i] is the first of [outputs] to carry the greatest
    score. *)
Definition first_max (outputs : list classification) (i : nat)
    (e : classification) : Prop :=
  nth_error outputs i = Some e
  /\ (forall j e', nth_error outputs j = Some e' -> (score e' <= score e)%Q)
  /\ (forall j e', j < i -> nth_error outputs j = Some e' ->
                   (score e' < score e)%Q).

(** [ls.index(l)]; the length of [ls] when [l] is not in it. *)
Fixpoint index_of (l : str) (ls : list str) : nat :=
  match ls with
  | [] => 0
  | x :: ls' => if str_eqb x l then 0 else S (index_of l ls')
  end.

(** The classifier lists entries of equal score in the order of the candidate
    labels.  A classifier that answers in the order it was asked does, and so
    does one that sorts its answers by score with a stable sort. *)
Definition ties_in_candidate_order (outputs : list classification) : Prop :=
  forall j k ej ek,
    j < k ->
    nth_error outputs j = Some ej -> nth_error outputs k = Some ek ->
    (score ej == score ek)%Q ->
    index_of (label ej) candidate_labels < index_of (label ek) candidate_labels.

(** The three branches of [convert_img_to_txt], and the tests that select
    one from the value of [image_type]. *)
Inductive branch := To_extract_text | To_extract_formula | To_caption.

Definition branch_of (image_type : option str) : branch :=
  if py_in image_type (labels_of "Text") then To_extract_text
  else if py_in image_type (labels_of "Formula") then To_extract_formula
  else To_caption.

Definition run_branch (self : ImageOCR) (br : branch)
    (binary_image : bytes) (image : Image) : M value :=
  match br with
  | To_extract_text =>
      texts <- extract_text self binary_image ;; ret (VStr texts)
  | To_extract_formula =>
      latex <- _extract_formula_from_image self image ;; ret (VStr latex)
  | To_caption => get_caption_with_gemini self binary_image
  end.

(** The category that owns a label, by membership lookup in the table. *)
Definition owner (l : str) : option str :=
  option_map fst (find (fun kv => existsb (str_eqb l) (snd kv)) IMAGE_CATEGORY).

(** The handler of a category: [Text] and [Formula] have their own, every
    other case goes to the captioner. *)
Definition branch_of_category (category : option str) : branch :=
  match category with
  | Some c =>
      if str_eqb c (lit "Text") then To_extract_text
      else if str_eqb c (lit "Formula") then To_extract_formula
      else To_caption
  | None => To_caption
  end.

(** The classifier calls recorded in a trace. *)
Fixpoint classifier_calls (t : trace) : list (Image * list str) :=
  match t with
  | [] => []
  | Call_image_classifier image labels :: t' => (image, labels) :: classifier_calls t'
  | _ :: t' => classifier_calls t'
  end.

(** [text.startswith(prefix)]. *)
Definition startswith (text prefix : str) : bool :=
  match strip_prefix prefix text with
  | Some _ => true
  | None => false
  end.

(** Wrapped as [$...$] with a single dollar sign at each end. *)
Definition single_dollar_wrapped (s : str) : bool :=
  startswith s (lit "$") && endswith s (lit "$")
  && negb (startswith s (lit "$$")) && negb (endswith s (lit "$$")).

(** ** Sample collaborators

    A small world in which the methods can be run: one encoded input that
    decodes, and [ImageOCR] objects whose collaborators answer as stated. *)

Module Demo.

Definition encoded : str := lit "aW1hZ2U=".

Definition binary : bytes := ["i"; "m"; "a"; "g"; "e"]%byte.

Definition picture : Image :=
  {| width := 1; height := 1; pixels := [(x00, x00, x00)%byte] |}.

Fixpoint bytes_eqb (a b : bytes) : bool :=
  match a, b with
  | [], [] => true
  | x :: a', y :: b' => Byte.eqb x y && bytes_eqb a' b'
  | _, _ => false
  end.

Definition b64decode (s : str) : outcome bytes :=
  if str_eqb s encoded then Returns binary
  else Raises (Exception "binascii.Error" (lit "Incorrect padding")).

Definition Image_open (b : bytes) : outcome Image :=
  if bytes_eqb b binary then Returns picture
  else Raises (Exception "UnidentifiedImageError" (lit "cannot identify image file")).

(** An object whose collaborators give the same answer to every call. *)
Definition make (scores : outcome (list classification))
    (ocr : outcome (list ocr_page)) (formula : outcome (list str))
    (caption : outcome value) : ImageOCR :=
  {| ocr_model := fun _ => ocr;
     image_classifier := fun _ _ => scores;
     formula_model := fun _ => formula;
     client := fun _ => caption |}.

Definition entry (l : string) (s : Q) : classification :=
  {| label := lit l; score := s |}.

Definition line (s : string) (c : Q) : ocr_line :=
  {| box := []; text := lit s; confidence := c |}.


(** Scores that put a [Text] label first, with another label tied. *)
Definition text_scores : list classification :=
  [ entry "a picture including bar graph" (1 # 10);
    entry "a sentence including English" (7 # 10);
    entry "formula including fraction or symbols" (7 # 10);
    entry "a photo including Hangul" (2 # 10) ].

(** Scores that put a [Formula] label first. *)
Definition formula_scores : list classification :=
  [ entry "a sentence including English" (1 # 10);
    entry "formula including fraction or symbols" (8 # 10);
    entry "a picture including curve graph" (1 # 10) ].

Definition page : list ocr_line :=
  [ line "Hello" (99 # 100); line "wor1d" (3 # 100); line "again" (50 # 100) ].

(** Every collaborator answers. *)
Definition reader : ImageOCR :=
  make (Returns text_scores) (Returns [Some page])
       (Returns [lit "x"]) (Returns (VStr (lit "a chart"))).


(** The formula model answers with the prompt echo and an artifact. *)
Definition solver : ImageOCR :=
  make (Returns formula_scores) (Returns [Some page])
       (Returns [lit "User: Extract mathematical expressions in LaTeX format Assistant: 0>0>500>500>x=1\, ."])
       (Returns (VStr (lit "a chart"))).

(** The formula model answers with text that carries its own dollar signs. *)
Definition solver_with_dollars : ImageOCR :=
  make (Returns formula_scores) (Returns [Some page])
       (Returns [lit "$x$"]) (Returns (VStr (lit "a chart"))).


End Demo.


(** ** Further notions on traces and texts *)

(** The number of handler calls recorded in a trace: the OCR engine, the
    formula model and the captioner. *)
Fixpoint handler_calls (t : trace) : nat :=
  match t with
  | [] => 0
  | Call_ocr _ :: t' => S (handler_calls t')
  | Call_formula_model _ :: t' => S (handler_calls t')
  | Call_generate_content _ :: t' => S (handler_calls t')
  | _ :: t' => handler_calls t'
  end.

(** No prompt echo starts at a position of [pre] in the text [pre ++ tail]. *)
Fixpoint echo_free (pre tail : str) : bool :=
  match pre with
  | [] => true
  | _ :: pre' =>
      match echo_len (pre ++ tail) with
      | Some _ => false
      | None => echo_free pre' tail
      end
  end.

(** ** The prompt of [utils/constants.py] *)

(** A part of a chat message: an image slot or a text. *)
Inductive content_part :=
| Part_image
| Part_text (text : str).

Record message := { role : str; content : list content_part }.

Definition FORMULA_OCR_MESSAGE : list message :=
  [ {| role := lit "user";
       content :=
         [ Part_image;
           Part_text (lit "Extract mathematical expressions in LaTeX format") ] |} ].

(** The texts that a list of messages holds, in order. *)
Definition prompt_texts (messages : list message) : list str :=
  flat_map
    (fun m =>
       flat_map
         (fun p => match p with Part_text t => [t] | Part_image => [] end)
         (content m))
    messages.

(** ** [utils/logger.py]

    The state of the [logging] module that [init_logger] reads and writes:
    the root logger and the dictionary of named loggers, each logger with
    its level, its handlers and its [propagate] flag.  Loggers are shared
    objects: [getLogger] hands out a reference into this state. *)

Module Logging.

Record Formatter := { fmt : str; datefmt : str }.

(** A handler: its class and the formatter set on it, if any. *)
Record Handler := { handler_class : string; formatter : option Formatter }.

Record Logger := { level : nat; handlers : list Handler; propagate : bool }.

Record manager := { root : Logger; loggerDict : list (str * Logger) }.

(** A reference to a logger object. *)
Inductive ref :=
| Root
| Named (name : str).

(** [logging._nameToLevel], as the module defines it. *)
Definition _nameToLevel : list (str * nat) :=
  [ (lit "CRITICAL", 50); (lit "FATAL", 50); (lit "ERROR", 40);
    (lit "WARN", 30); (lit "WARNING", 30); (lit "INFO", 20);
    (lit "DEBUG", 10); (lit "NOTSET", 0) ].

(** [d.get(key)] and [d[key] = v] on a dict in insertion order. *)
Fixpoint dict_get {V : Type} (d : list (str * V)) (key : str) : option V :=
  match d with
  | [] => None
  | (k, v) :: d' => if str_eqb k key then Some v else dict_get d' key
  end.

Fixpoint dict_set {V : Type} (d : list (str * V)) (key : str) (v : V)
    : list (str * V) :=
  match d with
  | [] => [(key, v)]
  | (k, v') :: d' =>
      if str_eqb k key then (k, v) :: d' else (k, v') :: dict_set d' key v
  end.

(** [logging._checkLevel] on a level given by name. *)
Definition _checkLevel (lv : str) : outcome nat :=
  match dict_get _nameToLevel lv with
  | Some n => Returns n
  | None =>
      Raises (Exception "ValueError" (lit "Unknown level: '" ++ lv ++ lit "'"))
  end.

(** A logger as [Logger.__init__] leaves it. *)
Definition new_logger : Logger :=
  {| level := 0; handlers := []; propagate := true |}.

(** The object a reference stands for, and the update of that object. *)
Definition deref (m : manager) (r : ref) : option Logger :=
  match r with
  | Root => Some (root m)
  | Named name => dict_get (loggerDict m) name
  end.

Definition update (m : manager) (r : ref) (lg : Logger) : manager :=
  match r with
  | Root => {| root := lg; loggerDict := loggerDict m |}
  | Named name =>
      {| root := root m; loggerDict := dict_set (loggerDict m) name lg |}
  end.

(** [logging.getLogger(name)]: the root logger for an empty name and for
    the name of the root logger, else the logger of that name, created on
    first use. *)
Definition getLogger (name : str) (m : manager) : ref * Logger * manager :=
  if str_eqb name (lit "") || str_eqb name (lit "root") then (Root, root m, m)
  else
    match dict_get (loggerDict m) name with
    | Some lg => (Named name, lg, m)
    | None => (Named name, new_logger, update m (Named name) new_logger)
    end.

(** The handler that [init_logger] builds. *)
Definition stream_handler : Handler :=
  {| handler_class := "StreamHandler";
     formatter :=
       Some {| fmt := lit "|%(asctime)s|==|%(levelname)s| %(funcName)s | %(message)s";
               datefmt := lit "%Y-%m-%d %H:%M:%S" |} |}.

(** [init_logger(name, level)]: the logger it returns, and the state of the
    module after the call. *)
Definition init_logger (name lv : str) (m : manager) : outcome ref * manager :=
  let '(r, logger, m) := getLogger name m in
  match _checkLevel lv with
  | Raises e => (Raises e, m)
  | Returns n =>
      let logger :=
        {| level := n; handlers := handlers logger; propagate := propagate logger |} in
      let logger :=
        match handlers logger with
        | [] =>
            {| level := level logger; handlers := [stream_handler];
               propagate := propagate logger |}
        | _ :: _ => logger
        end in
      let logger :=
        {| level := level logger; handlers := handlers logger; propagate := false |} in
      (Returns r, update m r logger)
  end.

(** Successive calls for one name, each with its own level. *)
Fixpoint init_logger_each (name : str) (lvs : list str) (m : manager) : manager :=
  match lvs with
  | [] => m
  | lv :: lvs' => init_logger_each name lvs' (snd (init_logger name lv m))
  end.

(** The reference [getLogger] gives for a name. *)
Definition ref_of (name : str) : ref :=
  if str_eqb name (lit "") || str_eqb name (lit "root") then Root else Named name.

(** The logger a name stands for before a call: the one the state holds,
    or a new one. *)
Definition prior (m : manager) (name : str) : Logger :=
  match deref m (ref_of name) with
  | Some lg => lg
  | None => new_logger
  end.

(** The handlers of a logger once [init_logger] has seen it. *)
Definition with_handler (hs : list Handler) : list Handler :=
  match hs with
  | [] => [stream_handler]
  | _ :: _ => hs
  end.

(** The state of the module before any logger is asked for. *)
Definition initial : manager :=
  {| root := {| level := 30; handlers := []; propagate := true |};
     loggerDict := [] |}.

End Logging.

(** ** More sample collaborators *)

Module Samples.

(** Scores that put a [Graph] label first. *)
Definition graph_scores : list classification :=
  [ Demo.entry "a picture including bar graph" (9 # 10);
    Demo.entry "a sentence including English" (1 # 10) ].


Definition plotter : ImageOCR :=
  Demo.make (Returns graph_scores) (Returns [Some Demo.page])
    (Returns [lit "x"]) (Returns (VStr (lit "a bar chart"))).




(** The classifier answers with no entry; the captioner has no text. *)
Definition mute : ImageOCR :=
  Demo.make (Returns []) (Returns [Some Demo.page])
    (Returns [lit "x"]) (Returns VNone).

End Samples.


(** ** The handlers, with the class test

    Every handler of the source reads [except Exception]: it catches a raised
    object only when [isinstance(e, Exception)] holds.  An object outside
    [Exception] ([KeyboardInterrupt], [SystemExit], ...) passes through each
    of them.  The two methods that hold a [try] are read here with that test,
    [is_Exception] standing for [isinstance(e, Exception)]. *)

Module ByClass.

Section Handlers.

Variable is_Exception : exn -> bool.

(** [try: m  except Exception as e: h e]. *)
Definition try_except {A} (m : M A) (h : exn -> M A) : M A :=
  fun t =>
    match m t with
    | (Returns a, t') => (Returns a, t')
    | (Raises e, t') => if is_Exception e then h e t' else (Raises e, t')
    end.

(** The result of a [try] block that is inspected after it. *)
Definition attempt {A} (m : M A) : M (A + exn) :=
  fun t =>
    match m t with
    | (Returns a, t') => (Returns (inl a), t')
    | (Raises e, t') =>
        if is_Exception e then (Returns (inr e), t') else (Raises e, t')
    end.

Variable b64decode : str -> outcome bytes.
Variable Image_open : bytes -> outcome Image.

Definition _classificate_image (self : ImageOCR) (image : Image) : M (option str) :=
  try_except
    (let candidate_labels := chain (values IMAGE_CATEGORY) in
     outputs <- invoke (Call_image_classifier image candidate_labels)
                  (image_classifier self image candidate_labels) ;;
     best <- py_max outputs ;;
     let best_output := label best in
     logger_info (lit "classificate image: " ++ best_output) ;;
     ret (Some best_output))
    (fun e =>
       logger_error (lit "Failed classificate image: " ++ str_of_exn e) ;;
       ret None).

Definition convert_img_to_txt (self : ImageOCR) (encode_image : str) : M value :=
  loaded <- attempt
    (binary_image <- invoke (Call_b64decode encode_image) (b64decode encode_image) ;;
     image <- invoke (Call_Image_open binary_image) (Image_open binary_image) ;;
     logger_info (lit "Success loading image") ;;
     ret (binary_image, image)) ;;
  match loaded with
  | inr e =>
      logger_error (lit "Failed loading image: " ++ str_of_exn e) ;;
      ret VNone
  | inl (binary_image, image) =>
      try_except
        (image_type <- _classificate_image self image ;;
         text_labels <- getitem IMAGE_CATEGORY (lit "Text") ;;
         if py_in image_type text_labels then
           texts <- extract_text self binary_image ;;
           ret (VStr texts)
         else
           formula_labels <- getitem IMAGE_CATEGORY (lit "Formula") ;;
           if py_in image_type formula_labels then
             latex <- _extract_formula_from_image self image ;;
             ret (VStr latex)
           else get_caption_with_gemini self binary_image)
        (fun _ => ret (VStr encode_image))
  end.

End Handlers.



End ByClass.

(** ** The first step, in the words of the two readings *)

(** The echo of the prompt template as the model prints it, with single
    spaces. *)
Definition EXACT_ECHO : str :=
  lit "User: Extract mathematical expressions in LaTeX format Assistant: 0>0>500>500>".

(** Every occurrence of a literal [pat] that is not empty is taken out of
    [text], from the left; [fuel] bounds the number of steps. *)
Fixpoint remove_all (fuel : nat) (pat text : str) : str :=
  match fuel with
  | 0 => text
  | S fuel' =>
      match strip_prefix pat text with
      | Some rest => remove_all fuel' pat rest
      | None =>
          match text with
          | [] => []
          | c :: text' => c :: remove_all fuel' pat text'
          end
      end
  end.

(** Step 1 as the specification words it: the exact echo is removed. *)
Definition remove_exact_echo (text : str) : str :=
  remove_all (S (List.length text)) EXACT_ECHO text.

(** The three steps as the specification words them. *)
Definition steps_as_worded (text : str) : str :=
  wrap_dollars (remove_artifact_at_end (remove_exact_echo text)).

(** Step 1 as the method performs it: going through the text from the left,
    a prompt echo that starts at the current position is dropped whole, with
    whatever whitespace it has between its pieces, and the scan goes on
    after it; a character at which no echo starts is kept. *)
Inductive echoes_removed : str -> str -> Prop :=
| echoes_removed_nil : echoes_removed [] []
| echoes_removed_echo (m rest out : str) :
    prompt_echo m -> echoes_removed rest out ->
    echoes_removed (m ++ rest) out
| echoes_removed_keep (c : char) (text out : str) :
    (forall m rest, c :: text = m ++ rest -> ~ prompt_echo m) ->
    echoes_removed text out ->
    echoes_removed (c :: text) (c :: out).

(** ** Sample collaborators with ties and interrupts *)

Module Samples2.

(** Two labels tied for the greatest score, listed in candidate order. *)
Definition tied_scores : list classification :=
  [ Demo.entry "a picture including bar graph" (1 # 10);
    Demo.entry "formula including fraction or symbols" (7 # 10);
    Demo.entry "a sentence including English" (7 # 10) ].

Definition tied : ImageOCR :=
  Demo.make (Returns tied_scores) (Returns [Some Demo.page])
    (Returns [lit "x"]) (Returns (VStr (lit "a chart"))).



End Samples2.

(** * Properties *)

(** ** Formula post-processing *)

Lemma str_eqb_eq (a b : str) : str_eqb a b = true <-> a = b.
Proof.
  revert b; induction a as [|x a IH]; intros [|y b]; simpl; split;
    try discriminate; try reflexivity.
  - intros H. apply andb_true_iff in H as [Hx Hr].
    apply N.eqb_eq in Hx. apply IH in Hr. now subst.
  - intros H. injection H as -> ->. rewrite N.eqb_refl. simpl. now apply IH.
Qed.

Lemma str_eqb_refl (a : str) : str_eqb a a = true.
Proof. now apply str_eqb_eq. Qed.

Lemma str_eqb_length (a b : str) :
  List.length a <> List.length b -> str_eqb a b = false.
Proof.
  intros H. destruct (str_eqb a b) eqn:E; [|reflexivity].
  apply str_eqb_eq in E. now subst.
Qed.

Lemma str_eqb_neq (a b : str) : a <> b -> str_eqb a b = false.
Proof.
  intros H. destruct (str_eqb a b) eqn:E; [|reflexivity].
  apply str_eqb_eq in E. contradiction.
Qed.

Lemma strip_prefix_app (l r : str) : strip_prefix l (l ++ r) = Some r.
Proof.
  induction l as [|c l IH]; simpl; [reflexivity|].
  now rewrite N.eqb_refl.
Qed.

Lemma strip_prefix_Some (l s r : str) :
  strip_prefix l s = Some r -> s = l ++ r.
Proof.
  revert s; induction l as [|c l IH]; intros s; simpl.
  - now intros [= ->].
  - destruct s as [|x s]; [discriminate|].
    destruct (N.eqb_spec x c) as [->|_]; [|discriminate].
    intros H. now rewrite (IH _ H).
Qed.

Lemma endswith_cons (c : char) (t suf : str) :
  endswith (c :: t) suf = str_eqb (c :: t) suf || endswith t suf.
Proof.
  unfold endswith.
  destruct (Nat.leb_spec (List.length suf) (List.length t)) as [Hle|Hgt].
  - replace (List.length suf <=? List.length (c :: t)) with true
      by (symmetry; apply Nat.leb_le; cbn [List.length]; lia).
    replace (List.length (c :: t) - List.length suf)
      with (S (List.length t - List.length suf)) by (cbn [List.length]; lia).
    simpl skipn. rewrite (str_eqb_length (c :: t) suf) by (cbn [List.length]; lia).
    reflexivity.
  - rewrite orb_false_r.
    destruct (Nat.eq_dec (List.length suf) (S (List.length t))) as [He|Hne].
    + replace (List.length suf <=? List.length (c :: t)) with true
        by (symmetry; apply Nat.leb_le; cbn [List.length]; lia).
      replace (List.length (c :: t) - List.length suf) with 0 by (cbn [List.length]; lia).
      reflexivity.
    + replace (List.length suf <=? List.length (c :: t)) with false
        by (symmetry; apply Nat.leb_gt; cbn [List.length]; lia).
      rewrite (str_eqb_length (c :: t) suf) by (cbn [List.length]; lia).
      reflexivity.
Qed.

Lemma endswith_length (t suf : str) :
  endswith t suf = true -> List.length suf <= List.length t.
Proof.
  unfold endswith. intros H. apply andb_true_iff in H as [H _].
  now apply Nat.leb_le.
Qed.

Lemma endswith_iff (t suf : str) :
  endswith t suf = true <-> exists pre, t = pre ++ suf.
Proof.
  split.
  - intros H. pose proof (endswith_length _ _ H) as Hl.
    unfold endswith in H. apply andb_true_iff in H as [_ H].
    apply str_eqb_eq in H.
    exists (firstn (List.length t - List.length suf) t).
    pose proof (firstn_skipn (List.length t - List.length suf) t) as F.
    rewrite H in F. now symmetry.
  - intros [pre ->]. induction pre as [|c pre IH].
    + simpl. unfold endswith. rewrite Nat.sub_diag, Nat.leb_refl. simpl.
      apply str_eqb_refl.
    + simpl. rewrite endswith_cons, IH. apply orb_true_r.
Qed.

Lemma drop_last_cons (n : nat) (c : char) (t : str) :
  n <= List.length t -> drop_last n (c :: t) = c :: drop_last n t.
Proof.
  intros H. unfold drop_last.
  replace (List.length (c :: t) - n) with (S (List.length t - n)) by (cbn [List.length]; lia).
  reflexivity.
Qed.

Lemma drop_last_app (pre suf : str) :
  drop_last (List.length suf) (pre ++ suf) = pre.
Proof.
  unfold drop_last. rewrite length_app.
  replace (List.length pre + List.length suf - List.length suf)
    with (List.length pre + 0) by lia.
  rewrite firstn_app_2. simpl. apply app_nil_r.
Qed.

Module ReFacts.
Import Re.

Lemma compile_prompt_echo :
  compile PROMPT_ECHO_RE
  = Some PROMPT.
Proof. vm_compute. reflexivity. Qed.

Lemma compile_trailing :
  compile TRAILING_RE = Some TRAILING.
Proof. vm_compute. reflexivity. Qed.

(** A run of literal characters matches exactly that prefix. *)
Lemma match_here_literal (l : str) (p : pattern) (s : str) :
  match_here (map Chr l ++ p) s
  = match strip_prefix l s with
    | Some r => option_map (Nat.add (List.length l)) (match_here p r)
    | None => None
    end.
Proof.
  revert s; induction l as [|c l IH]; intros s; simpl.
  - destruct (match_here p s); reflexivity.
  - destruct s as [|x s]; [reflexivity|].
    destruct (x =? c)%N; [|reflexivity].
    rewrite IH. destruct (strip_prefix l s) as [r|]; [|reflexivity].
    destruct (match_here p r); reflexivity.
Qed.

(** Before a literal that is not whitespace, [\s*] never gives a character
    back: it takes the whole run of whitespace. *)
Lemma match_here_space_star (c : char) (p : pattern) (s : str) :
  is_space c = false ->
  match_here (SpaceStar :: Chr c :: p) s
  = let (n, r) := skip_spaces s in
    option_map (Nat.add n) (match_here (Chr c :: p) r).
Proof.
  intros Hc. induction s as [|x s IH].
  - simpl. reflexivity.
  - change (match_here (SpaceStar :: Chr c :: p) (x :: s))
      with (if is_space x then
              match match_here (SpaceStar :: Chr c :: p) s with
              | Some n => Some (S n)
              | None => match_here (Chr c :: p) (x :: s)
              end
            else match_here (Chr c :: p) (x :: s)).
    simpl skip_spaces. destruct (is_space x) eqn:Hx.
    + rewrite IH. destruct (skip_spaces s) as [n r].
      destruct (match_here (Chr c :: p) r) eqn:Hm; simpl.
      * reflexivity.
      * destruct (N.eqb_spec x c) as [->|_]; [congruence|reflexivity].
    + clear IH. generalize (match_here (Chr c :: p) (x :: s)).
      intros [n|]; reflexivity.
Qed.

(** On the prompt-echo pattern the backtracking search finds exactly the
    echo that the direct reading finds. *)
Lemma match_here_prompt (s : str) : match_here PROMPT s = echo_len s.
Proof.
  unfold PROMPT, echo_len.
  rewrite match_here_literal.
  destruct (strip_prefix USER s) as [r1|]; [|reflexivity].
  set (q2 := SpaceStar :: map Chr ASSISTANT ++ []).
  assert (H1 : match_here (SpaceStar :: map Chr EXTRACT ++ q2) r1
               = let (n, r) := skip_spaces r1 in
                 option_map (Nat.add n) (match_here (map Chr EXTRACT ++ q2) r))
    by exact (match_here_space_star 69%N (map Chr (tl EXTRACT) ++ q2) r1 eq_refl).
  rewrite H1; clear H1.
  destruct (skip_spaces r1) as [n1 r1'].
  rewrite match_here_literal.
  destruct (strip_prefix EXTRACT r1') as [r2|]; [|reflexivity].
  subst q2.
  assert (H2 : match_here (SpaceStar :: map Chr ASSISTANT ++ []) r2
               = let (n, r) := skip_spaces r2 in
                 option_map (Nat.add n) (match_here (map Chr ASSISTANT ++ []) r))
    by exact (match_here_space_star 65%N (map Chr (tl ASSISTANT) ++ []) r2 eq_refl).
  rewrite H2; clear H2.
  destruct (skip_spaces r2) as [n2 r2'].
  rewrite match_here_literal.
  destruct (strip_prefix ASSISTANT r2') as [r3|]; [|reflexivity].
  unfold match_here, option_map. rewrite Nat.add_0_r. reflexivity.
Qed.

Lemma scan_ext (m m' : str -> option nat) (repl : str) :
  (forall s, m s = m' s) ->
  forall skip s, scan m repl skip s = scan m' repl skip s.
Proof.
  intros E skip s; revert skip.
  induction s as [|c s IH]; intros skip; simpl; [reflexivity|].
  destruct skip as [|k]; [|apply IH].
  rewrite E. destruct (m' (c :: s)) as [[|k]|]; now rewrite IH.
Qed.

(** The first substitution of the method is step 1. *)
Lemma sub_prompt_echo (text : str) :
  sub PROMPT_ECHO_RE (lit "") text = remove_prompt_echo text.
Proof.
  unfold sub. rewrite compile_prompt_echo.
  apply (scan_ext (match_here PROMPT) echo_len). apply match_here_prompt.
Qed.

(** The trailing pattern matches at a position exactly when what is left
    of the text is the artifact, alone or followed by one newline. *)
Lemma match_here_trailing (s : str) :
  match_here TRAILING s
  = if str_eqb s ARTIFACT || str_eqb s (ARTIFACT ++ [NEWLINE])
    then Some 4 else None.
Proof.
  unfold TRAILING. rewrite match_here_literal.
  destruct (strip_prefix ARTIFACT s) as [r|] eqn:E.
  - apply strip_prefix_Some in E. subst s.
    destruct r as [|c [|d r]].
    + rewrite app_nil_r, str_eqb_refl. reflexivity.
    + rewrite (str_eqb_length (ARTIFACT ++ [c]) ARTIFACT) by (simpl; lia).
      change (match_here [Dollar] [c])
        with (if (c =? 10)%N then Some 0 else None).
      destruct (N.eqb_spec c 10) as [->|Hc].
      * unfold NEWLINE. rewrite str_eqb_refl. reflexivity.
      * rewrite str_eqb_neq; [reflexivity|].
        intros H. apply app_inv_head in H. unfold NEWLINE in H. congruence.
    + rewrite !str_eqb_length; [reflexivity| |];
        rewrite ?length_app; simpl; lia.
  - destruct (str_eqb s ARTIFACT) eqn:E1.
    + apply str_eqb_eq in E1. subst s. discriminate E.
    + destruct (str_eqb s (ARTIFACT ++ [NEWLINE])) eqn:E2; [|reflexivity].
      apply str_eqb_eq in E2. subst s. discriminate E.
Qed.

(** The second substitution of the method removes the artifact at the end
    of the text and before a final newline. *)
Lemma sub_trailing (text : str) :
  sub TRAILING_RE (lit "") text = remove_trailing_artifact text.
Proof.
  unfold sub. rewrite compile_trailing.
  rewrite (scan_ext (match_here TRAILING) _ (lit "") match_here_trailing).
  unfold remove_trailing_artifact.
  induction text as [|c t IH].
  - reflexivity.
  - cbn [scan]. rewrite !endswith_cons.
    destruct (str_eqb (c :: t) ARTIFACT) eqn:E1.
    + apply str_eqb_eq in E1.
      change ARTIFACT with [92; 44; 32; 46]%N in E1.
      injection E1 as -> ->. vm_compute. reflexivity.
    + destruct (str_eqb (c :: t) (ARTIFACT ++ [NEWLINE])) eqn:E2.
      * apply str_eqb_eq in E2.
        change (ARTIFACT ++ [NEWLINE]) with [92; 44; 32; 46; 10]%N in E2.
        injection E2 as -> ->. vm_compute. reflexivity.
      * cbn [orb]. rewrite IH.
        destruct (endswith t ARTIFACT) eqn:F1.
        -- rewrite drop_last_cons; [reflexivity|].
           apply (endswith_length _ _ F1).
        -- destruct (endswith t (ARTIFACT ++ [NEWLINE])) eqn:F2;
             [|reflexivity].
           rewrite drop_last_cons; [reflexivity|].
           apply (endswith_length _ _ F2).
Qed.

End ReFacts.

(** *** What step 1 removes *)

Lemma skip_spaces_spec (s : str) :
  forall n r, skip_spaces s = (n, r) ->
    exists ws, s = ws ++ r /\ forallb Re.is_space ws = true /\ List.length ws = n.
Proof.
  induction s as [|x s IH]; intros n r H; simpl in H.
  - injection H as <- <-. now exists [].
  - destruct (Re.is_space x) eqn:Hx.
    + destruct (skip_spaces s) as [n' r'] eqn:E. injection H as <- <-.
      destruct (IH n' r' eq_refl) as (ws & -> & Hws & <-).
      exists (x :: ws). simpl. now rewrite Hx, Hws.
    + injection H as <- <-. now exists [].
Qed.

Lemma skip_spaces_app (ws r : str) :
  forallb Re.is_space ws = true ->
  match r with [] => True | x :: _ => Re.is_space x = false end ->
  skip_spaces (ws ++ r) = (List.length ws, r).
Proof.
  intros Hws Hr. induction ws as [|x ws IH]; simpl.
  - destruct r as [|y r]; [reflexivity|]. simpl. now rewrite Hr.
  - simpl in Hws. apply andb_true_iff in Hws as [Hx Hws].
    now rewrite Hx, (IH Hws).
Qed.

(** The direct matcher finds a length exactly when the text starts with a
    prompt echo of that length. *)
Lemma echo_len_sound (s : str) (n : nat) :
  echo_len s = Some n ->
  exists m rest, s = m ++ rest /\ prompt_echo m /\ List.length m = n.
Proof.
  unfold echo_len. intros H.
  destruct (strip_prefix USER s) as [r1|] eqn:E1; [|discriminate].
  apply strip_prefix_Some in E1.
  destruct (skip_spaces r1) as [n1 r1'] eqn:S1.
  destruct (skip_spaces_spec _ _ _ S1) as (ws1 & -> & H1 & <-).
  destruct (strip_prefix EXTRACT r1') as [r2|] eqn:E2; [|discriminate].
  apply strip_prefix_Some in E2.
  destruct (skip_spaces r2) as [n2 r2'] eqn:S2.
  destruct (skip_spaces_spec _ _ _ S2) as (ws2 & -> & H2 & <-).
  destruct (strip_prefix ASSISTANT r2') as [r3|] eqn:E3; [|discriminate].
  apply strip_prefix_Some in E3. injection H as <-. subst.
  exists (USER ++ ws1 ++ EXTRACT ++ ws2 ++ ASSISTANT), r3. split; [|split].
  - now rewrite <- !app_assoc.
  - now exists ws1, ws2.
  - now rewrite !length_app.
Qed.

Lemma echo_len_complete (m rest : str) :
  prompt_echo m -> echo_len (m ++ rest) = Some (List.length m).
Proof.
  intros (ws1 & ws2 & H1 & H2 & ->). unfold echo_len.
  rewrite <- !app_assoc, strip_prefix_app.
  rewrite (skip_spaces_app ws1 _ H1) by reflexivity.
  rewrite strip_prefix_app.
  rewrite (skip_spaces_app ws2 _ H2) by reflexivity.
  rewrite strip_prefix_app. now rewrite !length_app.
Qed.

(** C7. The prompt echo followed by [x=1\, .] is cleaned to [$x=1$]. *)
Theorem convert_text_to_latex_example :
  _convert_text_to_latex
    (lit "User: Extract mathematical expressions in LaTeX format Assistant: 0>0>500>500>"
     ++ lit "x=1\, .")
  = lit "$x=1$".
Proof. vm_compute. reflexivity. Qed.

(** ** The selection of the best label *)

Lemma score_gt_iff (a b : Q) : score_gt a b = true <-> (b < a)%Q.
Proof.
  unfold score_gt. rewrite negb_true_iff. split.
  - intros H. apply Qnot_le_lt. intros Hle.
    apply Qle_bool_iff in Hle. congruence.
  - intros H. destruct (Qle_bool a b) eqn:E; [|reflexivity].
    apply Qle_bool_iff in E. exfalso. exact (Qlt_not_le _ _ H E).
Qed.

Lemma score_gt_false (a b : Q) : score_gt a b = false <-> (a <= b)%Q.
Proof.
  unfold score_gt. rewrite negb_false_iff. apply Qle_bool_iff.
Qed.

(** The loop of [max] ends on the first entry that carries the greatest
    score. *)
Lemma max_loop_first_max (rest : list classification) :
  forall (best : classification) (i : nat) (e : classification),
    first_max (best :: rest) i e -> max_loop best rest = e.
Proof.
  induction rest as [|y r IH]; intros best i e (Hi & Hmax & Hfirst).
  - destruct i as [|i]; simpl in Hi.
    + now injection Hi.
    + destruct i; discriminate Hi.
  - simpl. destruct (score_gt (score y) (score best)) eqn:G.
    + apply score_gt_iff in G.
      destruct i as [|i].
      * simpl in Hi. injection Hi as <-.
        exfalso. apply (Qlt_not_le _ _ G). apply (Hmax 1 y). reflexivity.
      * apply (IH y i e). split; [exact Hi|]. split.
        -- intros j e' Hj. apply (Hmax (S j) e'). exact Hj.
        -- intros j e' Hlt Hj. apply (Hfirst (S j) e'); [lia|exact Hj].
    + apply score_gt_false in G.
      destruct i as [|[|i]].
      * simpl in Hi. injection Hi as <-.
        apply (IH best 0 best). split; [reflexivity|]. split.
        -- intros [|j] e' Hj.
           ++ apply (Hmax 0 e'). exact Hj.
           ++ apply (Hmax (S (S j)) e'). exact Hj.
        -- intros j e' Hlt. lia.
      * simpl in Hi. injection Hi as <-.
        exfalso. apply (Qlt_not_le (score best) (score y)); [|exact G].
        apply (Hfirst 0 best); [lia|reflexivity].
      * apply (IH best (S i) e). split; [exact Hi|]. split.
        -- intros [|j] e' Hj.
           ++ apply (Hmax 0 e'). exact Hj.
           ++ apply (Hmax (S (S j)) e'). exact Hj.
        -- intros [|j] e' Hlt Hj.
           ++ apply (Hfirst 0 e'); [lia|exact Hj].
           ++ apply (Hfirst (S (S j)) e'); [lia|exact Hj].
Qed.

(** Every list that is not empty has such an entry: the one the loop ends on. *)
Lemma max_loop_is_first_max (rest : list classification) :
  forall best : classification,
    exists i, first_max (best :: rest) i (max_loop best rest).
Proof.
  induction rest as [|y r IH]; intros best.
  - exists 0. split; [reflexivity|]. split.
    + intros [|[|j]] e' Hj; try discriminate Hj.
      injection Hj as <-. apply Qle_refl.
    + intros j e' Hlt. lia.
  - simpl. destruct (score_gt (score y) (score best)) eqn:G.
    + apply score_gt_iff in G.
      destruct (IH y) as (i & Hi & Hmax & Hfirst).
      assert (Hy : (score y <= score (max_loop y r))%Q)
        by (apply (Hmax 0 y); reflexivity).
      exists (S i). split; [exact Hi|]. split.
      * intros [|j] e' Hj.
        -- injection Hj as <-. apply Qlt_le_weak.
           exact (Qlt_le_trans _ _ _ G Hy).
        -- apply (Hmax j e'). exact Hj.
      * intros [|j] e' Hlt Hj.
        -- injection Hj as <-. exact (Qlt_le_trans _ _ _ G Hy).
        -- apply (Hfirst j e'); [lia|exact Hj].
    + apply score_gt_false in G.
      destruct (IH best) as (i & Hi & Hmax & Hfirst).
      assert (Hb : (score best <= score (max_loop best r))%Q)
        by (apply (Hmax 0 best); reflexivity).
      destruct i as [|i].
      * exists 0. simpl in Hi. split; [exact Hi|]. split.
        -- intros [|[|j]] e' Hj.
           ++ apply (Hmax 0 e'). exact Hj.
           ++ injection Hj as <-. exact (Qle_trans _ _ _ G Hb).
           ++ apply (Hmax (S j) e'). exact Hj.
        -- intros j e' Hlt. lia.
      * exists (S (S i)). split; [exact Hi|]. split.
        -- intros [|[|j]] e' Hj.
           ++ apply (Hmax 0 e'). exact Hj.
           ++ injection Hj as <-. exact (Qle_trans _ _ _ G Hb).
           ++ apply (Hmax (S j) e'). exact Hj.
        -- intros [|[|j]] e' Hlt Hj.
           ++ apply (Hfirst 0 e'); [lia|exact Hj].
           ++ injection Hj as <-. apply (Qle_lt_trans _ _ _ G).
              apply (Hfirst 0 best); [lia|reflexivity].
           ++ apply (Hfirst (S j) e'); [lia|exact Hj].
Qed.

(** ** Running the methods *)

Arguments lit : simpl never.

Lemma getitem_Text (t : trace) :
  getitem IMAGE_CATEGORY (lit "Text") t = (Returns (labels_of "Text"), t).
Proof. reflexivity. Qed.

Lemma getitem_Formula (t : trace) :
  getitem IMAGE_CATEGORY (lit "Formula") t = (Returns (labels_of "Formula"), t).
Proof. reflexivity. Qed.

(** The three ways [_classificate_image] can go; it returns in each. *)
Lemma classificate_image_run (self : ImageOCR) (image : Image) (t : trace) :
  _classificate_image self image t =
  match image_classifier self image candidate_labels with
  | Returns (x :: rest) =>
      (Returns (Some (label (max_loop x rest))),
       t ++ [ Call_image_classifier image candidate_labels;
              Log INFO (lit "classificate image: " ++ label (max_loop x rest)) ])
  | Returns [] =>
      (Returns None,
       t ++ [ Call_image_classifier image candidate_labels;
              Log ERROR (lit "Failed classificate image: "
                         ++ lit "max() arg is an empty sequence") ])
  | Raises e =>
      (Returns None,
       t ++ [ Call_image_classifier image candidate_labels;
              Log ERROR (lit "Failed classificate image: " ++ str_of_exn e) ])
  end.
Proof.
  unfold _classificate_image, try_except, bind, invoke, py_max, logger_info,
    logger_error, ret, raise.
  fold candidate_labels.
  destruct (image_classifier self image candidate_labels) as [[|x rest]|e];
    cbn [str_of_exn]; rewrite <- app_assoc; reflexivity.
Qed.

Lemma classificate_image_returns (self : ImageOCR) (image : Image) (t : trace) :
  exists image_type, fst (_classificate_image self image t) = Returns image_type.
Proof.
  rewrite classificate_image_run.
  destruct (image_classifier self image candidate_labels) as [[|x rest]|e];
    eexists; reflexivity.
Qed.

(** C6, as the code has it. Whatever list the classifier hands back, the
    label selected is that of the first entry of that list carrying the
    greatest score: entries further down the list with the same score never
    displace it, whatever their place among the candidate labels.  When the
    classifier keeps
    entries of equal score in the order of the candidate labels, the selected
    label comes before every other label of greatest score in the candidate
    order. *)
Theorem classificate_image_stable_max (self : ImageOCR) (image : Image)
    (outputs : list classification) (i : nat) (e : classification) (t : trace) :
  image_classifier self image candidate_labels = Returns outputs ->
  first_max outputs i e ->
  fst (_classificate_image self image t) = Returns (Some (label e))
  /\ (ties_in_candidate_order outputs ->
      forall k ek,
        nth_error outputs k = Some ek -> k <> i ->
        (score ek == score e)%Q ->
        index_of (label e) candidate_labels
        < index_of (label ek) candidate_labels).
Proof.
  intros Hc Hfm. split.
  - rewrite classificate_image_run, Hc.
    destruct outputs as [|x rest].
    + destruct Hfm as (Hi & _). destruct i; discriminate Hi.
    + rewrite (max_loop_first_max rest x i e Hfm). reflexivity.
  - intros Hties k ek Hk Hne Heq.
    destruct Hfm as (Hi & Hmax & Hfirst).
    destruct (Nat.lt_trichotomy k i) as [Hlt|[->|Hgt]].
    + exfalso. apply (Qlt_irrefl (score e)).
      rewrite <- Heq at 1. exact (Hfirst k ek Hlt Hk).
    + contradiction.
    + apply (Hties i k e ek Hgt Hi Hk). symmetry. exact Heq.
Qed.

(** A classifier that answers at all with a list that is not empty always
    gets a label selected, that of the first entry of greatest score. *)
Lemma classificate_image_selects (self : ImageOCR) (image : Image)
    (x : classification) (rest : list classification) (t : trace) :
  image_classifier self image candidate_labels = Returns (x :: rest) ->
  exists i e,
    first_max (x :: rest) i e
    /\ fst (_classificate_image self image t) = Returns (Some (label e)).
Proof.
  intros Hc. destruct (max_loop_is_first_max rest x) as [i Hfm].
  exists i, (max_loop x rest). split; [exact Hfm|].
  rewrite classificate_image_run, Hc. reflexivity.
Qed.

Lemma In_py_in (l : str) (ls : list str) : In l ls -> py_in (Some l) ls = true.
Proof.
  intros H. simpl. apply existsb_exists. exists l. split; [assumption|].
  apply str_eqb_refl.
Qed.



Lemma branch_of_Formula (l : str) :
  In l (labels_of "Formula") -> branch_of (Some l) = To_extract_formula.
Proof.
  intros H. unfold branch_of. rewrite (In_py_in _ _ H).
  replace (py_in (Some l) (labels_of "Text")) with false; [reflexivity|].
  vm_compute in H. destruct H as [<-|[<-|[]]]; vm_compute; reflexivity.
Qed.


(** The dollar signs around a wrapped text. *)
Lemma startswith_wrap (c : str) : startswith (wrap_dollars c) (lit "$") = true.
Proof. reflexivity. Qed.

Lemma endswith_wrap (c : str) : endswith (wrap_dollars c) (lit "$") = true.
Proof.
  apply endswith_iff. exists (lit "$" ++ c).
  unfold wrap_dollars. now rewrite app_assoc.
Qed.

Lemma startswith_wrap_doubled (c : str) :
  startswith (wrap_dollars c) (lit "$$")
  = match c with [] => true | _ :: _ => startswith c (lit "$") end.
Proof.
  destruct c as [|x c]; [reflexivity|].
  change (startswith (wrap_dollars (x :: c)) (lit "$$"))
    with (match (if (x =? 36)%N then Some (c ++ lit "$") else None) with
          | Some _ => true | None => false end).
  change (startswith (x :: c) (lit "$"))
    with (match (if (x =? 36)%N then Some c else None) with
          | Some _ => true | None => false end).
  destruct (x =? 36)%N; reflexivity.
Qed.

Lemma endswith_wrap_doubled (c : str) :
  endswith (wrap_dollars c) (lit "$$") = true
  <-> c = [] \/ endswith c (lit "$") = true.
Proof.
  rewrite !endswith_iff. split.
  - intros [pre H].
    change (wrap_dollars c) with ((36%N :: c) ++ [36%N]) in H.
    change (pre ++ lit "$$") with (pre ++ [36%N] ++ [36%N]) in H.
    rewrite app_assoc in H. apply app_inj_tail in H as [H _].
    destruct pre as [|x pre]; simpl in H.
    + left. now injection H.
    + right. injection H as _ ->. now exists pre.
  - intros [->|[pre ->]].
    + now exists [].
    + exists (36%N :: pre).
      change (wrap_dollars (pre ++ lit "$")) with (36%N :: (pre ++ [36%N]) ++ [36%N]).
      change (lit "$$") with ([36%N] ++ [36%N]).
      simpl. now rewrite <- app_assoc.
Qed.

(** The wrapper leaves a single dollar sign at each end exactly when the
    text it wraps is not empty and brings no dollar sign to either end. *)
Lemma single_dollar_wrap_iff (c : str) :
  single_dollar_wrapped (wrap_dollars c) = true
  <-> c <> [] /\ startswith c (lit "$") = false /\ endswith c (lit "$") = false.
Proof.
  unfold single_dollar_wrapped.
  rewrite startswith_wrap, endswith_wrap, startswith_wrap_doubled.
  cbn [andb]. rewrite andb_true_iff, !negb_true_iff.
  split.
  - intros [S E]. destruct c as [|x c]; [discriminate S|].
    split; [discriminate|]. split; [exact S|].
    destruct (endswith (x :: c) (lit "$")) eqn:F; [|reflexivity].
    rewrite (proj2 (endswith_wrap_doubled (x :: c)) (or_intror F)) in E.
    discriminate E.
  - intros (Hne & S & E). destruct c as [|x c]; [contradiction|].
    split; [exact S|].
    destruct (endswith (wrap_dollars (x :: c)) (lit "$$")) eqn:F; [|reflexivity].
    apply endswith_wrap_doubled in F as [F|F]; [discriminate F|congruence].
Qed.

(** The category that owns a label, test by test. *)
Lemma owner_tests (l : str) :
  owner l =
  if existsb (str_eqb l) (labels_of "Graph") then Some (lit "Graph")
  else if existsb (str_eqb l) (labels_of "Formula") then Some (lit "Formula")
  else if existsb (str_eqb l) (labels_of "Text") then Some (lit "Text")
  else None.
Proof.
  unfold owner.
  change IMAGE_CATEGORY
    with [ (lit "Graph", labels_of "Graph"); (lit "Formula", labels_of "Formula");
           (lit "Text", labels_of "Text") ].
  cbn [find snd].
  destruct (existsb (str_eqb l) (labels_of "Graph")); [reflexivity|].
  destruct (existsb (str_eqb l) (labels_of "Formula")); [reflexivity|].
  destruct (existsb (str_eqb l) (labels_of "Text")); reflexivity.
Qed.

(** The tests of the method select the handler of the owning category. *)
Lemma branch_of_owner (l : str) :
  branch_of (Some l) = branch_of_category (owner l).
Proof.
  rewrite owner_tests. unfold branch_of. cbn [py_in].
  destruct (existsb (str_eqb l) (labels_of "Text")) eqn:T.
  - apply existsb_exists in T as [x [Hx E]]. apply str_eqb_eq in E. subst x.
    vm_compute in Hx. destruct Hx as [<-|[<-|[<-|[<-|[]]]]]; reflexivity.
  - destruct (existsb (str_eqb l) (labels_of "Formula")) eqn:F.
    + apply existsb_exists in F as [x [Hx E]]. apply str_eqb_eq in E. subst x.
      vm_compute in Hx. destruct Hx as [<-|[<-|[]]]; reflexivity.
    + destruct (existsb (str_eqb l) (labels_of "Graph")); reflexivity.
Qed.

Lemma classifier_calls_app (a b : trace) :
  classifier_calls (a ++ b) = classifier_calls a ++ classifier_calls b.
Proof.
  induction a as [|ev a IH]; [reflexivity|].
  destruct ev; simpl; now rewrite IH.
Qed.

(** No branch calls the classifier. *)
Lemma run_branch_classifier_calls (self : ImageOCR) (br : branch)
    (binary_image : bytes) (image : Image) (t : trace) :
  classifier_calls (snd (run_branch self br binary_image image t))
  = classifier_calls t.
Proof.
  destruct br; unfold run_branch, extract_text, _extract_formula_from_image,
    get_caption_with_gemini, bind, invoke.
  - destruct (ocr_model self binary_image) as [[|[lines|] more]|e];
      cbn [first_item iter ret raise snd]; rewrite classifier_calls_app;
      apply app_nil_r.
  - destruct (formula_model self image) as [[|raw more]|e];
      cbn [first_item ret raise snd]; rewrite classifier_calls_app;
      apply app_nil_r.
  - cbn [snd]. rewrite classifier_calls_app. apply app_nil_r.
Qed.

Section Dispatch.

Variable b64decode : str -> outcome bytes.
Variable Image_open : bytes -> outcome Image.
Variable self : ImageOCR.

Local Notation convert := (convert_img_to_txt b64decode Image_open self).

(** After a successful decode, the method is the second [try] block: the
    classification, then the branch its result selects, with the fallback
    to the input. *)
Lemma convert_decoded (encode_image : str) (binary_image : bytes)
    (image : Image) (t : trace) :
  decodes_to b64decode Image_open encode_image binary_image image ->
  convert encode_image t =
  try_except
    (image_type <- _classificate_image self image ;;
     run_branch self (branch_of image_type) binary_image image)
    (fun _ => ret (VStr encode_image))
    (t ++ loading encode_image binary_image).
Proof.
  intros [Hb Hi]. unfold convert, convert_img_to_txt.
  unfold bind at 1. unfold attempt, bind at 1. unfold invoke at 1. rewrite Hb.
  unfold bind at 1. unfold invoke at 1. rewrite Hi.
  unfold bind at 1, logger_info at 1, ret at 1.
  replace (((t ++ [Call_b64decode encode_image])
            ++ [Call_Image_open binary_image])
            ++ [Log INFO (lit "Success loading image")])
    with (t ++ loading encode_image binary_image)
    by (unfold loading; rewrite <- !app_assoc; reflexivity).
  generalize (t ++ loading encode_image binary_image) as t0. intros t0.
  unfold try_except, bind.
  destruct (_classificate_image self image t0) as [[image_type|e] t1];
    [|reflexivity].
  rewrite getitem_Text. unfold branch_of.
  destruct (py_in image_type (labels_of "Text")); [reflexivity|].
  rewrite getitem_Formula.
  destruct (py_in image_type (labels_of "Formula")); reflexivity.
Qed.


Lemma convert_not_decoded (encode_image : str) (e : exn)
    (calls : trace) (t : trace) :
  decode_fails b64decode Image_open encode_image e calls ->
  convert encode_image t =
  (Returns VNone,
   t ++ calls ++ [Log ERROR (lit "Failed loading image: " ++ str_of_exn e)]).
Proof.
  intros H.
  unfold convert, convert_img_to_txt, bind, attempt, invoke, logger_error, ret.
  destruct H as [[Hb ->]|(binary_image & Hb & Hi & ->)].
  - rewrite Hb. rewrite <- app_assoc. reflexivity.
  - rewrite Hb, Hi. rewrite <- !app_assoc. reflexivity.
Qed.

(** C4. An input that fails to decode, at the base64 step or at the image
    step, makes the method log the error and return [None], which is not
    the empty string; nothing is raised. *)
Theorem convert_decode_failure (encode_image : str) (e : exn)
    (calls : trace) (t : trace) :
  decode_fails b64decode Image_open encode_image e calls ->
  convert encode_image t =
  (Returns VNone,
   t ++ calls ++ [Log ERROR (lit "Failed loading image: " ++ str_of_exn e)])
  /\ VNone <> VStr (lit "").
Proof.
  intros H. split; [|discriminate].
  now apply convert_not_decoded.
Qed.


(** C3, as the code has it. When the selected label belongs to [Formula]
    and the formula model answers, the method returns the cleaned answer
    between two dollar signs.  The result always starts and ends with a
    dollar sign; the sign is single at both ends exactly when the cleaned
    answer is not empty and has no dollar sign of its own at either end. *)
Theorem convert_formula_wrapped (encode_image : str) (binary_image : bytes)
    (image : Image) (l : str) (raw : str) (more : list str) (t : trace) :
  decodes_to b64decode Image_open encode_image binary_image image ->
  classified_as self image l ->
  In l (labels_of "Formula") ->
  formula_model self image = Returns (raw :: more) ->
  let cleaned := remove_trailing_artifact (remove_prompt_echo raw) in
  fst (convert encode_image t) = Returns (VStr (wrap_dollars cleaned))
  /\ startswith (wrap_dollars cleaned) (lit "$") = true
  /\ endswith (wrap_dollars cleaned) (lit "$") = true
  /\ (single_dollar_wrapped (wrap_dollars cleaned) = true
      <-> cleaned <> [] /\ startswith cleaned (lit "$") = false
          /\ endswith cleaned (lit "$") = false).
Proof.
  intros Hd (x & rest & Hc & Hl) Hin Hf cleaned.
  split; [|split; [apply startswith_wrap|split;
                   [apply endswith_wrap|apply single_dollar_wrap_iff]]].
  rewrite (convert_decoded _ _ _ _ Hd).
  unfold try_except, bind at 1. rewrite classificate_image_run, Hc, Hl.
  rewrite (branch_of_Formula _ Hin).
  unfold run_branch, _extract_formula_from_image, bind, invoke. rewrite Hf.
  cbn [first_item ret fst]. unfold cleaned, _convert_text_to_latex, wrap_dollars.
  rewrite ReFacts.sub_prompt_echo, ReFacts.sub_trailing. reflexivity.
Qed.

(** C9. After a successful decode the classifier is called once, with the
    nine labels of the table in its order: those of [Graph], then those of
    [Formula], then those of [Text].  The label it selects is taken back to
    the category that owns it, and that category's handler runs. *)
Theorem convert_calls_classifier (encode_image : str) (binary_image : bytes)
    (image : Image) (t : trace) :
  decodes_to b64decode Image_open encode_image binary_image image ->
  candidate_labels
  = labels_of "Graph" ++ labels_of "Formula" ++ labels_of "Text"
  /\ List.length candidate_labels = 9
  /\ classifier_calls (snd (convert encode_image t))
     = classifier_calls t ++ [(image, candidate_labels)]
  /\ (forall l, classified_as self image l ->
        convert encode_image t =
        try_except
          (run_branch self (branch_of_category (owner l)) binary_image image)
          (fun _ => ret (VStr encode_image))
          (t ++ loading encode_image binary_image
             ++ [ Call_image_classifier image candidate_labels;
                  Log INFO (lit "classificate image: " ++ l) ])).
Proof.
  intros Hd. split; [reflexivity|]. split; [reflexivity|].
  rewrite (convert_decoded _ _ _ _ Hd). split.
  - unfold try_except, bind, ret. rewrite classificate_image_run.
    set (t0 := t ++ loading encode_image binary_image).
    assert (E0 : classifier_calls t0 = classifier_calls t).
    { unfold t0. rewrite classifier_calls_app. apply app_nil_r. }
    destruct (image_classifier self image candidate_labels)
      as [[|x rest]|e]; cbv beta iota;
      match goal with
      | |- context [run_branch self ?br binary_image image ?t1] =>
          pose proof (run_branch_classifier_calls self br binary_image image t1)
            as R;
          destruct (run_branch self br binary_image image t1) as [[v|e'] t2]
      end; cbn [snd] in R |- *; rewrite R, classifier_calls_app, E0;
      reflexivity.
  - intros l (x & rest & Hc & Hl).
    unfold try_except, bind at 1. rewrite classificate_image_run, Hc, Hl.
    rewrite branch_of_owner, <- app_assoc. reflexivity.
Qed.

End Dispatch.

(** ** The table *)

Lemma candidate_labels_NoDup : NoDup candidate_labels.
Proof.
  repeat (constructor; [vm_compute; intuition discriminate|]). constructor.
Qed.

(** C10. No label of the table belongs to two categories: the candidate
    labels are pairwise distinct, and each of them has one owning category,
    whose handler is the branch that the tests of the method select. *)
Theorem image_category_disjoint :
  NoDup candidate_labels
  /\ (forall l, In l candidate_labels ->
        exists c ls,
          In (c, ls) IMAGE_CATEGORY /\ In l ls
          /\ (forall c' ls', In (c', ls') IMAGE_CATEGORY -> In l ls' -> c' = c)
          /\ owner l = Some c
          /\ branch_of (Some l) = branch_of_category (Some c)).
Proof.
  split; [exact candidate_labels_NoDup|].
  intros l Hl. vm_compute in Hl.
  destruct Hl as [<-|[<-|[<-|[<-|[<-|[<-|[<-|[<-|[<-|[]]]]]]]]]].
  1-3: exists (lit "Graph"), (labels_of "Graph").
  4-5: exists (lit "Formula"), (labels_of "Formula").
  6-9: exists (lit "Text"), (labels_of "Text").
  all: split; [vm_compute; tauto|]; split; [vm_compute; tauto|];
    split; [|split; reflexivity];
    intros c' ls' Hc Hin; vm_compute in Hc;
    destruct Hc as [Hc|[Hc|[Hc|[]]]]; injection Hc as <- <-;
    try reflexivity; exfalso; vm_compute in Hin; intuition discriminate.
Qed.

(** ** Runs on the sample collaborators *)

Module Runs.

Import Demo.

Lemma convert_formula_wrapped_witness :
  fst (convert_img_to_txt b64decode Image_open solver encoded [])
  = Returns (VStr (lit "$x=1$"))
  /\ single_dollar_wrapped (lit "$x=1$") = true.
Proof.
  destruct (convert_formula_wrapped b64decode Image_open solver encoded binary
              picture (lit "formula including fraction or symbols")
              (lit "User: Extract mathematical expressions in LaTeX format Assistant: 0>0>500>500>x=1\, .")
              [] []) as (R & _ & _ & W).
  - split; reflexivity.
  - eexists. eexists. split; reflexivity.
  - vm_compute. tauto.
  - reflexivity.
  - split; [exact R|]. apply W. vm_compute.
    split; [discriminate|]. split; reflexivity.
Defined.

(** C3 as stated fails: the wrapper adds its dollar signs to whatever the
    cleaning leaves.  Here the model's answer is [$x$], and the method returns
    [$$x$$], with a doubled dollar sign at each end. *)
Lemma formula_dollars_doubled :
  decodes_to b64decode Image_open encoded binary picture
  /\ classified_as solver_with_dollars picture
       (lit "formula including fraction or symbols")
  /\ In (lit "formula including fraction or symbols") (labels_of "Formula")
  /\ formula_model solver_with_dollars picture = Returns [lit "$x$"]
  /\ fst (convert_img_to_txt b64decode Image_open solver_with_dollars encoded [])
     = Returns (VStr (lit "$$x$$"))
  /\ single_dollar_wrapped (lit "$$x$$") = false.
Proof.
  split; [split; reflexivity|].
  split; [eexists; eexists; split; reflexivity|].
  split; [vm_compute; tauto|].
  repeat split; reflexivity.
Qed.

Lemma convert_decode_failure_witness :
  convert_img_to_txt b64decode Image_open reader (lit "not base64!") []
  = (Returns VNone,
     [ Call_b64decode (lit "not base64!");
       Log ERROR (lit "Failed loading image: Incorrect padding") ])
  /\ VNone <> VStr (lit "").
Proof.
  refine (convert_decode_failure b64decode Image_open reader (lit "not base64!")
            (Exception "binascii.Error" (lit "Incorrect padding"))
            [Call_b64decode (lit "not base64!")] [] _).
  left. split; reflexivity.
Defined.



Lemma convert_calls_classifier_witness :
  classifier_calls
    (snd (convert_img_to_txt b64decode Image_open reader encoded []))
  = [(picture, candidate_labels)]
  /\ owner (lit "a sentence including English") = Some (lit "Text").
Proof.
  split.
  - refine (proj1 (proj2 (proj2 (convert_calls_classifier b64decode Image_open
              reader encoded binary picture [] _)))).
    split; reflexivity.
  - reflexivity.
Defined.

Lemma image_category_disjoint_witness :
  exists c ls,
    In (c, ls) IMAGE_CATEGORY /\ In (lit "a formula including Korean") ls
    /\ (forall c' ls', In (c', ls') IMAGE_CATEGORY ->
          In (lit "a formula including Korean") ls' -> c' = c)
    /\ owner (lit "a formula including Korean") = Some c
    /\ branch_of (Some (lit "a formula including Korean"))
       = branch_of_category (Some c).
Proof.
  apply (proj2 image_category_disjoint (lit "a formula including Korean")).
  vm_compute. tauto.
Defined.

End Runs.


(** * Further properties *)

(** ** The dispatcher on every path *)

Lemma handler_calls_app (a b : trace) :
  handler_calls (a ++ b) = handler_calls a + handler_calls b.
Proof.
  induction a as [|ev a IH]; [reflexivity|].
  destruct ev; simpl; now rewrite IH.
Qed.


(** Classification always hands back a value, and calls no handler. *)
Lemma classificate_image_result (self : ImageOCR) (image : Image) (t : trace) :
  exists image_type t1,
    _classificate_image self image t = (Returns image_type, t1)
    /\ handler_calls t1 = handler_calls t.
Proof.
  rewrite classificate_image_run.
  destruct (image_classifier self image candidate_labels) as [[|x rest]|e];
    eexists; eexists; (split; [reflexivity|]);
    rewrite handler_calls_app; simpl; lia.
Qed.


Section Paths.

Variable b64decode : str -> outcome bytes.
Variable Image_open : bytes -> outcome Image.
Variable self : ImageOCR.

Local Notation convert := (convert_img_to_txt b64decode Image_open self).

(** After a successful decode, the result of the method is the result of
    the branch that the classification selects, with the input in place of
    an exception. *)
Lemma convert_decoded_branch (encode_image : str) (binary_image : bytes)
    (image : Image) (t : trace) (image_type : option str) (t1 : trace) :
  decodes_to b64decode Image_open encode_image binary_image image ->
  _classificate_image self image (t ++ loading encode_image binary_image)
  = (Returns image_type, t1) ->
  convert encode_image t =
  match run_branch self (branch_of image_type) binary_image image t1 with
  | (Returns v, t2) => (Returns v, t2)
  | (Raises _, t2) => (Returns (VStr encode_image), t2)
  end.
Proof.
  intros Hd Hc. rewrite (convert_decoded _ _ _ _ _ _ _ Hd).
  unfold try_except, bind, ret. rewrite Hc.
  destruct (run_branch self _ binary_image image t1) as [[v|e] t2]; reflexivity.
Qed.



(** X3. [None] comes back in two cases only: the input did not decode, or the
    captioner branch ran and the captioner itself answered [None]. *)
Theorem convert_None_only_if (encode_image : str) (t : trace) :
  fst (convert encode_image t) = Returns VNone ->
  (exists e calls, decode_fails b64decode Image_open encode_image e calls)
  \/ (exists binary_image image,
        decodes_to b64decode Image_open encode_image binary_image image
        /\ client self binary_image = Returns VNone
        /\ exists image_type t1,
             _classificate_image self image
               (t ++ loading encode_image binary_image)
             = (Returns image_type, t1)
             /\ branch_of image_type = To_caption).
Proof.
  intros H.
  destruct (b64decode encode_image) as [binary_image|e] eqn:Hb.
  2:{ left. exists e, [Call_b64decode encode_image]. left. now split. }
  destruct (Image_open binary_image) as [image|e] eqn:Hi.
  2:{ left. exists e, [Call_b64decode encode_image; Call_Image_open binary_image].
      right. exists binary_image. now repeat split. }
  right. exists binary_image, image.
  assert (Hd : decodes_to b64decode Image_open encode_image binary_image image)
    by now split.
  split; [exact Hd|].
  destruct (classificate_image_result self image
              (t ++ loading encode_image binary_image))
    as (image_type & t1 & Hc & _).
  rewrite (convert_decoded_branch _ _ _ _ _ _ Hd Hc) in H.
  destruct (branch_of image_type) eqn:Hbr.
  - exfalso. revert H.
    unfold run_branch, extract_text, bind, invoke.
    destruct (ocr_model self binary_image) as [[|[lines|] more]|e];
      cbn [first_item iter ret raise fst]; discriminate.
  - exfalso. revert H.
    unfold run_branch, _extract_formula_from_image, bind, invoke.
    destruct (formula_model self image) as [[|raw more]|e];
      cbn [first_item ret raise fst]; discriminate.
  - split.
    + revert H. unfold run_branch, get_caption_with_gemini, invoke.
      destruct (client self binary_image) as [v|e]; cbn [fst].
      * now intros [= ->].
      * discriminate.
    + exists image_type, t1. now split.
Qed.





End Paths.


(** X9. For every answer of the classifier that is not empty a label is
    selected: it is the label of an entry of the answer, the first one of
    greatest score. *)
Theorem classificate_image_always_selects (self : ImageOCR) (image : Image)
    (outputs : list classification) (t : trace) :
  image_classifier self image candidate_labels = Returns outputs ->
  outputs <> [] ->
  exists i e,
    first_max outputs i e
    /\ In (label e) (map label outputs)
    /\ fst (_classificate_image self image t) = Returns (Some (label e)).
Proof.
  intros Hc Hne. destruct outputs as [|x rest]; [contradiction|].
  destruct (max_loop_is_first_max rest x) as [i Hfm].
  exists i, (max_loop x rest). split; [exact Hfm|]. split.
  - apply in_map. destruct Hfm as (Hi & _). exact (nth_error_In _ _ Hi).
  - rewrite classificate_image_run, Hc. reflexivity.
Qed.

(** ** The two substitutions of the formula post-processing *)

Lemma scan_skip (m : str -> option nat) (repl : str) (s : str) :
  forall k, Re.scan m repl k s = Re.scan m repl 0 (skipn k s).
Proof.
  induction s as [|c s IH]; intros [|k]; try reflexivity.
  simpl. apply IH.
Qed.

(** A match at the head of the text is replaced, and the scan goes on after
    it. *)
Lemma scan_match (m : str -> option nat) (repl : str) (s : str) (k : nat) :
  s <> [] -> m s = Some (S k) ->
  Re.scan m repl 0 s = repl ++ Re.scan m repl 0 (skipn (S k) s).
Proof.
  intros Hs Hm. destruct s as [|c s]; [contradiction|].
  cbn [Re.scan]. rewrite Hm. now rewrite scan_skip.
Qed.

Lemma scan_length (m : str -> option nat) (s : str) :
  forall k, List.length (Re.scan m [] k s) <= List.length s.
Proof.
  induction s as [|c s IH]; intros k; simpl; [lia|].
  destruct k as [|k].
  - destruct (m (c :: s)) as [[|j]|]; simpl.
    + specialize (IH 0). lia.
    + specialize (IH j). lia.
    + specialize (IH 0). lia.
  - specialize (IH k). lia.
Qed.

Lemma prompt_echo_not_empty (m : str) : prompt_echo m -> m <> [].
Proof. intros (ws1 & ws2 & _ & _ & ->). discriminate. Qed.

(** Step 1 over a stretch of text in which no echo starts. *)
Lemma remove_prompt_echo_free (pre tail : str) :
  echo_free pre tail = true ->
  remove_prompt_echo (pre ++ tail) = pre ++ remove_prompt_echo tail.
Proof.
  unfold remove_prompt_echo. induction pre as [|c pre IH]; intros H.
  - reflexivity.
  - cbn [echo_free] in H. change ((c :: pre) ++ tail) with (c :: pre ++ tail) in *.
    cbn [Re.scan].
    destruct (echo_len (c :: pre ++ tail)); [discriminate|].
    now rewrite (IH H).
Qed.

(** Step 1 on an echo at the head of the text. *)
Lemma remove_prompt_echo_head (m rest : str) :
  prompt_echo m ->
  remove_prompt_echo (m ++ rest) = remove_prompt_echo rest.
Proof.
  intros Hm. unfold remove_prompt_echo.
  pose proof (prompt_echo_not_empty m Hm) as Hne.
  pose proof (echo_len_complete m rest Hm) as Hlen.
  destruct (List.length m) as [|k] eqn:Hk.
  - destruct m; [contradiction|discriminate].
  - rewrite (scan_match echo_len [] (m ++ rest) k); [|now destruct m|exact Hlen].
    rewrite <- Hk, skipn_app, skipn_all, Nat.sub_diag. reflexivity.
Qed.

(** A text without the letter that starts the echo holds no echo. *)
Lemma echo_free_without_U (pre tail : str) :
  ~ In 85%N pre -> echo_free pre tail = true.
Proof.
  induction pre as [|c pre IH]; intros H; [reflexivity|].
  cbn [echo_free].
  destruct (echo_len ((c :: pre) ++ tail)) as [n|] eqn:E.
  - exfalso. apply echo_len_sound in E as (m & rest & Hs & (ws1 & ws2 & _ & _ & ->) & _).
    change (USER ++ ws1 ++ EXTRACT ++ ws2 ++ ASSISTANT)
      with (85%N :: tl USER ++ ws1 ++ EXTRACT ++ ws2 ++ ASSISTANT) in Hs.
    injection Hs as -> _. apply H. now left.
  - apply IH. intros Hin. apply H. now right.
Qed.

(** X10. What the first pattern matches at a position is a prompt echo, and every
    prompt echo is matched whole: the three pieces of the template, with any
    run of whitespace, or none, between them. *)
Theorem prompt_pattern_matches_echo :
  exists p,
    Re.compile PROMPT_ECHO_RE = Some p
    /\ forall s n,
         Re.match_here p s = Some n
         <-> exists m rest, s = m ++ rest /\ prompt_echo m /\ List.length m = n.
Proof.
  exists PROMPT. split; [exact ReFacts.compile_prompt_echo|].
  intros s n. rewrite ReFacts.match_here_prompt. split.
  - apply echo_len_sound.
  - intros (m & rest & -> & Hm & <-). now apply echo_len_complete.
Qed.

(** X11. An echo at the head of the model's answer leaves no mark on the result,
    whatever whitespace stands between its pieces. *)
Theorem convert_text_to_latex_drops_echo (m rest : str) :
  prompt_echo m ->
  _convert_text_to_latex (m ++ rest) = _convert_text_to_latex rest.
Proof.
  intros Hm. unfold _convert_text_to_latex.
  rewrite !ReFacts.sub_prompt_echo. now rewrite remove_prompt_echo_head.
Qed.

(** X12. The echo is removed wherever it stands, not only at the head, and the
    scan goes on after it for further echoes. *)
Theorem sub_prompt_echo_anywhere (pre m rest : str) :
  echo_free pre (m ++ rest) = true ->
  prompt_echo m ->
  Re.sub PROMPT_ECHO_RE (lit "") (pre ++ m ++ rest)
  = pre ++ Re.sub PROMPT_ECHO_RE (lit "") rest.
Proof.
  intros Hf Hm. rewrite !ReFacts.sub_prompt_echo.
  rewrite (remove_prompt_echo_free _ _ Hf). now rewrite remove_prompt_echo_head.
Qed.

(** X13. An answer that holds no echo and does not end in the artifact is
    returned between dollar signs, otherwise untouched. *)
Theorem convert_text_to_latex_clean (text : str) :
  echo_free text [] = true ->
  endswith text ARTIFACT = false ->
  endswith text (ARTIFACT ++ [NEWLINE]) = false ->
  _convert_text_to_latex text = lit "$" ++ text ++ lit "$".
Proof.
  intros Hf H1 H2. unfold _convert_text_to_latex.
  rewrite ReFacts.sub_prompt_echo, ReFacts.sub_trailing.
  pose proof (remove_prompt_echo_free text [] Hf) as E.
  rewrite app_nil_r in E. rewrite E. cbn [remove_prompt_echo Re.scan].
  rewrite app_nil_r. unfold remove_trailing_artifact. now rewrite H1, H2.
Qed.

Lemma not_endswith_artifact_newline (pre : str) :
  endswith (pre ++ ARTIFACT ++ [NEWLINE]) ARTIFACT = false.
Proof.
  destruct (endswith (pre ++ ARTIFACT ++ [NEWLINE]) ARTIFACT) eqn:E;
    [|reflexivity].
  apply endswith_iff in E as [p E].
  change ARTIFACT with ([92; 44; 32]%N ++ [46%N]) in E at 2.
  rewrite !app_assoc in E. apply app_inj_tail in E as [_ E]. discriminate E.
Qed.

(** X14. The second substitution removes one artifact, the last: what stands
    before it stays as it is, even another artifact. *)
Theorem sub_trailing_removes_last (pre : str) :
  Re.sub TRAILING_RE (lit "") (pre ++ ARTIFACT) = pre
  /\ Re.sub TRAILING_RE (lit "") (pre ++ ARTIFACT ++ [NEWLINE])
     = pre ++ [NEWLINE].
Proof.
  rewrite !ReFacts.sub_trailing. unfold remove_trailing_artifact. split.
  - rewrite (proj2 (endswith_iff _ _) (ex_intro _ pre eq_refl)).
    exact (drop_last_app pre ARTIFACT).
  - rewrite not_endswith_artifact_newline.
    rewrite (proj2 (endswith_iff (pre ++ ARTIFACT ++ [NEWLINE])
                      (ARTIFACT ++ [NEWLINE])) (ex_intro _ pre eq_refl)).
    pose proof (drop_last_app pre (ARTIFACT ++ [NEWLINE])) as D.
    change (List.length (ARTIFACT ++ [NEWLINE])) with 5 in D.
    now rewrite D.
Qed.

(** X15. The cleaning never lengthens the text: the result is at most two
    characters longer than the answer of the model, and at least two long. *)
Theorem convert_text_to_latex_length (text : str) :
  2 <= List.length (_convert_text_to_latex text) <= List.length text + 2.
Proof.
  unfold _convert_text_to_latex, Re.sub.
  rewrite ReFacts.compile_prompt_echo, ReFacts.compile_trailing.
  rewrite !length_app.
  change (List.length (lit "$")) with 1.
  pose proof (scan_length (Re.match_here PROMPT) text 0) as H1.
  pose proof (scan_length (Re.match_here TRAILING)
                (Re.scan (Re.match_here PROMPT) (lit "") 0 text) 0) as H2.
  change (lit "") with (@nil char) in *. lia.
Qed.

(** X16. The artifact is looked for after the echo is gone: an artifact that is
    followed by an echo at the end of the answer is removed with it. *)
Theorem convert_text_to_latex_artifact_then_echo (body m : str) :
  echo_free (body ++ ARTIFACT) m = true ->
  prompt_echo m ->
  _convert_text_to_latex (body ++ ARTIFACT ++ m) = lit "$" ++ body ++ lit "$".
Proof.
  intros Hf Hm. unfold _convert_text_to_latex.
  rewrite ReFacts.sub_prompt_echo, ReFacts.sub_trailing.
  replace (body ++ ARTIFACT ++ m) with ((body ++ ARTIFACT) ++ m ++ [])
    by (now rewrite app_nil_r, app_assoc).
  rewrite (remove_prompt_echo_free (body ++ ARTIFACT) (m ++ []))
    by (now rewrite app_nil_r).
  rewrite (remove_prompt_echo_head m [] Hm).
  cbn [remove_prompt_echo Re.scan]. rewrite app_nil_r.
  unfold remove_trailing_artifact.
  rewrite (proj2 (endswith_iff _ _) (ex_intro _ body eq_refl)).
  pose proof (drop_last_app body ARTIFACT) as D.
  change (List.length ARTIFACT) with 4 in D. now rewrite D.
Qed.

(** X17. The echo pattern is written for the prompt that the code sends: the echo
    of a text of [FORMULA_OCR_MESSAGE] between the two role marks, with any
    whitespace around it, leaves no mark on the result. *)
Theorem convert_text_to_latex_drops_configured_prompt
    (prompt ws1 ws2 rest : str) :
  In prompt (prompt_texts FORMULA_OCR_MESSAGE) ->
  forallb Re.is_space ws1 = true ->
  forallb Re.is_space ws2 = true ->
  _convert_text_to_latex
    (lit "User:" ++ ws1 ++ prompt ++ ws2 ++ lit "Assistant: 0>0>500>500>" ++ rest)
  = _convert_text_to_latex rest.
Proof.
  intros Hp H1 H2. destruct Hp as [<-|[]].
  rewrite <- (convert_text_to_latex_drops_echo
                (USER ++ ws1 ++ EXTRACT ++ ws2 ++ ASSISTANT) rest)
    by (now exists ws1, ws2).
  rewrite <- !app_assoc. reflexivity.
Qed.

(** X18. Neither pattern can match the empty string: a match of the echo pattern
    is at least 76 characters long, a match of the trailing pattern exactly
    4.  Every replacement therefore removes text. *)
Theorem patterns_match_lengths :
  exists p q,
    Re.compile PROMPT_ECHO_RE = Some p /\ Re.compile TRAILING_RE = Some q
    /\ (forall s n, Re.match_here p s = Some n -> 76 <= n <= List.length s)
    /\ (forall s n, Re.match_here q s = Some n -> n = 4 /\ 4 <= List.length s).
Proof.
  exists PROMPT, TRAILING.
  split; [exact ReFacts.compile_prompt_echo|].
  split; [exact ReFacts.compile_trailing|]. split.
  - intros s n H. rewrite ReFacts.match_here_prompt in H.
    apply echo_len_sound in H as (m & rest & -> & (ws1 & ws2 & _ & _ & ->) & <-).
    rewrite !length_app.
    change (List.length USER) with 5. change (List.length EXTRACT) with 48.
    change (List.length ASSISTANT) with 23. lia.
  - intros s n H. rewrite ReFacts.match_here_trailing in H.
    destruct (str_eqb s ARTIFACT) eqn:E1.
    + apply str_eqb_eq in E1. subst s. cbn [orb] in H.
      injection H as <-. split; [reflexivity|]. vm_compute. lia.
    + destruct (str_eqb s (ARTIFACT ++ [NEWLINE])) eqn:E2.
      * apply str_eqb_eq in E2. subst s. cbn [orb] in H.
        injection H as <-. split; [reflexivity|]. vm_compute. lia.
      * discriminate H.
Qed.

(** ** The logger set-up of [utils/logger.py] *)

Module LoggingFacts.

Import Logging.

Lemma dict_get_set_same {V : Type} (d : list (str * V)) (k : str) (v : V) :
  dict_get (dict_set d k v) k = Some v.
Proof.
  induction d as [|[k0 v0] d IH]; simpl.
  - now rewrite str_eqb_refl.
  - destruct (str_eqb k0 k) eqn:E; simpl; now rewrite E.
Qed.

Lemma dict_get_set_other {V : Type} (d : list (str * V)) (k k' : str) (v : V) :
  k <> k' -> dict_get (dict_set d k v) k' = dict_get d k'.
Proof.
  intros Hne. induction d as [|[k0 v0] d IH]; simpl.
  - now rewrite (str_eqb_neq k k' Hne).
  - destruct (str_eqb k0 k) eqn:E; simpl.
    + apply str_eqb_eq in E. subst k0. now rewrite (str_eqb_neq k k' Hne).
    + destruct (str_eqb k0 k'); [reflexivity|exact IH].
Qed.

Lemma dict_set_set {V : Type} (d : list (str * V)) (k : str) (v v' : V) :
  dict_set (dict_set d k v) k v' = dict_set d k v'.
Proof.
  induction d as [|[k0 v0] d IH]; simpl.
  - now rewrite str_eqb_refl.
  - destruct (str_eqb k0 k) eqn:E; simpl; rewrite E; [reflexivity|now rewrite IH].
Qed.

Lemma deref_update_same (m : manager) (r : ref) (lg : Logger) :
  deref (update m r lg) r = Some lg.
Proof. destruct r; simpl; [reflexivity|apply dict_get_set_same]. Qed.

Lemma deref_update_other (m : manager) (r r' : ref) (lg : Logger) :
  r <> r' -> deref (update m r lg) r' = deref m r'.
Proof.
  intros Hne. destruct r as [|k], r' as [|k']; simpl; try reflexivity.
  - contradiction.
  - apply dict_get_set_other. congruence.
Qed.

Lemma update_update (m : manager) (r : ref) (a b : Logger) :
  update (update m r a) r b = update m r b.
Proof. destruct r; simpl; [reflexivity|now rewrite dict_set_set]. Qed.

(** [getLogger] hands out the reference of the name and the logger that the
    name stood for, which the state holds from then on; no other logger
    changes. *)
Lemma getLogger_spec (name : str) (m : manager) :
  exists m',
    getLogger name m = (ref_of name, prior m name, m')
    /\ deref m' (ref_of name) = Some (prior m name)
    /\ (forall r', r' <> ref_of name -> deref m' r' = deref m r')
    /\ (forall lg, update m' (ref_of name) lg = update m (ref_of name) lg).
Proof.
  unfold getLogger, prior, ref_of.
  destruct (str_eqb name (lit "") || str_eqb name (lit "root")).
  - exists m. split; [reflexivity|]. split; [reflexivity|].
    split; intros; reflexivity.
  - cbn [deref]. destruct (dict_get (loggerDict m) name) as [lg|] eqn:E.
    + exists m. split; [reflexivity|]. split; [exact E|].
      split; intros; reflexivity.
    + exists (update m (Named name) new_logger).
      split; [reflexivity|]. split; [|split].
      * apply (deref_update_same m (Named name)).
      * intros r' Hne. apply deref_update_other. congruence.
      * intros lg. apply update_update.
Qed.

(** One call with a level that [logging] knows. *)
Lemma init_logger_known (name lv : str) (n : nat) (m : manager) :
  _checkLevel lv = Returns n ->
  init_logger name lv m =
  (Returns (ref_of name),
   update m (ref_of name)
     {| level := n; handlers := with_handler (handlers (prior m name));
        propagate := false |}).
Proof.
  intros Hlv. unfold init_logger.
  destruct (getLogger_spec name m) as (m' & -> & _ & _ & Hu).
  rewrite Hlv. cbn [level handlers propagate]. rewrite Hu.
  unfold with_handler. destruct (handlers (prior m name)); reflexivity.
Qed.

Lemma with_handler_idem (hs : list Handler) :
  with_handler (with_handler hs) = with_handler hs.
Proof. destruct hs; reflexivity. Qed.

Lemma prior_update (m : manager) (name : str) (lg : Logger) :
  prior (update m (ref_of name) lg) name = lg.
Proof. unfold prior. now rewrite deref_update_same. Qed.

(** X19. However many times a logger is set up, it keeps the handlers it had, or
    the one stream handler if it had none: no call adds a second handler.
    Its level is that of the last call, and it does not propagate. *)
Theorem init_logger_each_state (name : str) (lvs : list str) (lv : str)
    (n : nat) (m : manager) :
  Forall (fun lv' => exists n', _checkLevel lv' = Returns n') lvs ->
  _checkLevel lv = Returns n ->
  deref (init_logger_each name (lvs ++ [lv]) m) (ref_of name)
  = Some {| level := n; handlers := with_handler (handlers (prior m name));
            propagate := false |}.
Proof.
  intros Hall Hlv. revert m. induction Hall as [|lv0 lvs [n0 H0] _ IH]; intros m.
  - cbn [app init_logger_each]. rewrite (init_logger_known _ _ _ _ Hlv).
    apply deref_update_same.
  - cbn [app init_logger_each]. rewrite (init_logger_known _ _ _ _ H0).
    cbn [snd]. rewrite IH, prior_update. cbn [handlers].
    now rewrite with_handler_idem.
Qed.

(** X20. Setting a logger up a second time with the same level changes nothing:
    the state and the logger handed back are those of the first call. *)
Theorem init_logger_idempotent (name lv : str) (n : nat) (m : manager) :
  _checkLevel lv = Returns n ->
  init_logger name lv (snd (init_logger name lv m)) = init_logger name lv m.
Proof.
  intros Hlv. rewrite !(init_logger_known _ _ _ _ Hlv). cbn [snd].
  rewrite prior_update, update_update. cbn [handlers].
  now rewrite with_handler_idem.
Qed.

(** X21. A call touches the logger of its name only: every other logger, the root
    logger included, is as it was, whether the call succeeds or raises. *)
Theorem init_logger_frame (name lv : str) (m : manager) (r' : ref) :
  r' <> ref_of name ->
  deref (snd (init_logger name lv m)) r' = deref m r'.
Proof.
  intros Hne. unfold init_logger.
  destruct (getLogger_spec name m) as (m' & -> & _ & Hother & Hu).
  destruct (_checkLevel lv) as [n|e]; cbn [snd].
  - match goal with
    | |- deref (update m' (ref_of name) ?lg) r' = _ =>
        rewrite (Hu lg)
    end.
    apply deref_update_other. congruence.
  - now apply Hother.
Qed.

(** X22. A level name that [logging] does not know makes the call raise
    [ValueError] after the logger was looked up: the logger exists from then
    on, but as it was or as new, with no handler added and [propagate] left
    alone. *)
Theorem init_logger_unknown_level (name lv : str) (m : manager) :
  dict_get _nameToLevel lv = None ->
  (exists msg, fst (init_logger name lv m) = Raises (Exception "ValueError" msg))
  /\ deref (snd (init_logger name lv m)) (ref_of name) = Some (prior m name).
Proof.
  intros Hlv. unfold init_logger, _checkLevel.
  destruct (getLogger_spec name m) as (m' & -> & Hd & _ & _).
  rewrite Hlv. cbn [fst snd]. split; [eexists; reflexivity|exact Hd].
Qed.

End LoggingFacts.

(** ** Further runs on the sample collaborators *)

Module Checks.

Import Demo Samples.



Lemma convert_None_only_if_witness :
  fst (convert_img_to_txt b64decode Image_open mute encoded []) = Returns VNone
  /\ ((exists e calls, decode_fails b64decode Image_open encoded e calls)
      \/ (exists binary_image image,
            decodes_to b64decode Image_open encoded binary_image image
            /\ client mute binary_image = Returns VNone
            /\ exists image_type t1,
                 _classificate_image mute image
                   ([] ++ loading encoded binary_image)
                 = (Returns image_type, t1)
                 /\ branch_of image_type = To_caption)).
Proof.
  split; [reflexivity|].
  apply (convert_None_only_if b64decode Image_open mute encoded []).
  reflexivity.
Defined.






Lemma classificate_image_always_selects_witness :
  exists i e,
    first_max graph_scores i e
    /\ In (label e) (map label graph_scores)
    /\ fst (_classificate_image plotter picture []) = Returns (Some (label e)).
Proof.
  refine (classificate_image_always_selects plotter picture graph_scores [] _ _).
  - reflexivity.
  - discriminate.
Defined.

(** An echo whose pieces are separated by a newline and by nothing. *)
Lemma prompt_pattern_matches_echo_witness :
  exists p,
    Re.compile PROMPT_ECHO_RE = Some p
    /\ Re.match_here p
         (USER ++ [NEWLINE] ++ EXTRACT ++ [] ++ ASSISTANT ++ lit "x=1")
       = Some 77.
Proof.
  destruct prompt_pattern_matches_echo as (p & Hp & Hm).
  exists p. split; [exact Hp|].
  apply Hm.
  exists (USER ++ [NEWLINE] ++ EXTRACT ++ [] ++ ASSISTANT), (lit "x=1").
  split; [now rewrite <- !app_assoc|]. split; [|reflexivity].
  exists [NEWLINE], []. repeat split; reflexivity.
Defined.

Lemma convert_text_to_latex_drops_echo_witness :
  _convert_text_to_latex
    ((USER ++ [NEWLINE] ++ EXTRACT ++ [] ++ ASSISTANT) ++ lit "x=1")
  = _convert_text_to_latex (lit "x=1").
Proof.
  apply (convert_text_to_latex_drops_echo
           (USER ++ [NEWLINE] ++ EXTRACT ++ [] ++ ASSISTANT) (lit "x=1")).
  exists [NEWLINE], []. repeat split; reflexivity.
Defined.

Lemma sub_prompt_echo_anywhere_witness :
  Re.sub PROMPT_ECHO_RE (lit "")
    (lit "a+b " ++ (USER ++ lit " " ++ EXTRACT ++ lit " " ++ ASSISTANT)
     ++ lit "c")
  = lit "a+b " ++ Re.sub PROMPT_ECHO_RE (lit "") (lit "c").
Proof.
  apply (sub_prompt_echo_anywhere (lit "a+b ")
           (USER ++ lit " " ++ EXTRACT ++ lit " " ++ ASSISTANT) (lit "c")).
  - vm_compute. reflexivity.
  - exists (lit " "), (lit " "). repeat split; reflexivity.
Defined.

Lemma convert_text_to_latex_clean_witness :
  _convert_text_to_latex (lit "User: x\, . y") = lit "$User: x\, . y$".
Proof.
  apply (convert_text_to_latex_clean (lit "User: x\, . y"));
    vm_compute; reflexivity.
Defined.

Lemma convert_text_to_latex_artifact_then_echo_witness :
  _convert_text_to_latex
    (lit "x=1" ++ ARTIFACT ++ (USER ++ [] ++ EXTRACT ++ [] ++ ASSISTANT))
  = lit "$" ++ lit "x=1" ++ lit "$".
Proof.
  apply (convert_text_to_latex_artifact_then_echo (lit "x=1")
           (USER ++ [] ++ EXTRACT ++ [] ++ ASSISTANT)).
  - vm_compute. reflexivity.
  - exists [], []. repeat split; reflexivity.
Defined.

Lemma convert_text_to_latex_drops_configured_prompt_witness :
  _convert_text_to_latex
    (lit "User:" ++ lit " "
     ++ lit "Extract mathematical expressions in LaTeX format" ++ [NEWLINE]
     ++ lit "Assistant: 0>0>500>500>" ++ lit "E=mc^2")
  = _convert_text_to_latex (lit "E=mc^2").
Proof.
  apply (convert_text_to_latex_drops_configured_prompt
           (lit "Extract mathematical expressions in LaTeX format")
           (lit " ") [NEWLINE] (lit "E=mc^2")).
  - left. reflexivity.
  - reflexivity.
  - reflexivity.
Defined.

Lemma patterns_match_lengths_witness :
  exists q,
    Re.compile TRAILING_RE = Some q
    /\ forall n, Re.match_here q (lit "\, .") = Some n -> n = 4.
Proof.
  destruct patterns_match_lengths as (p & q & _ & Hq & _ & Ht).
  exists q. split; [exact Hq|].
  intros n H. exact (proj1 (Ht _ _ H)).
Defined.

Lemma init_logger_each_state_witness :
  Logging.deref
    (Logging.init_logger_each (lit "image_ocr.py")
       ([lit "DEBUG"; lit "INFO"] ++ [lit "WARNING"]) Logging.initial)
    (Logging.ref_of (lit "image_ocr.py"))
  = Some {| Logging.level := 30;
            Logging.handlers := [Logging.stream_handler];
            Logging.propagate := false |}.
Proof.
  refine (LoggingFacts.init_logger_each_state (lit "image_ocr.py")
            [lit "DEBUG"; lit "INFO"] (lit "WARNING") 30 Logging.initial _ _).
  - repeat constructor; eexists; reflexivity.
  - reflexivity.
Defined.

Lemma init_logger_idempotent_witness :
  Logging.init_logger (lit "image_ocr.py") (lit "DEBUG")
    (snd (Logging.init_logger (lit "image_ocr.py") (lit "DEBUG") Logging.initial))
  = Logging.init_logger (lit "image_ocr.py") (lit "DEBUG") Logging.initial.
Proof.
  apply (LoggingFacts.init_logger_idempotent (lit "image_ocr.py") (lit "DEBUG")
           10 Logging.initial).
  reflexivity.
Defined.

Lemma init_logger_frame_witness :
  Logging.deref
    (snd (Logging.init_logger (lit "image_ocr.py") (lit "DEBUG") Logging.initial))
    Logging.Root
  = Logging.deref Logging.initial Logging.Root.
Proof.
  apply (LoggingFacts.init_logger_frame (lit "image_ocr.py") (lit "DEBUG")
           Logging.initial Logging.Root).
  vm_compute. discriminate.
Defined.

Lemma init_logger_unknown_level_witness :
  (exists msg,
     fst (Logging.init_logger (lit "image_ocr.py") (lit "debug") Logging.initial)
     = Raises (Exception "ValueError" msg))
  /\ Logging.deref
       (snd (Logging.init_logger (lit "image_ocr.py") (lit "debug") Logging.initial))
       (Logging.ref_of (lit "image_ocr.py"))
     = Some (Logging.prior Logging.initial (lit "image_ocr.py")).
Proof.
  apply (LoggingFacts.init_logger_unknown_level (lit "image_ocr.py")
           (lit "debug") Logging.initial).
  reflexivity.
Defined.

End Checks.


(** * The handlers with the class test *)

Section ByClassFacts.

Variable is_Exception : exn -> bool.
Variable b64decode : str -> outcome bytes.
Variable Image_open : bytes -> outcome Image.
Variable self : ImageOCR.

Local Notation classify := (ByClass._classificate_image is_Exception self).
Local Notation convert :=
  (ByClass.convert_img_to_txt is_Exception b64decode Image_open self).





End ByClassFacts.

(** When everything raised is an instance of [Exception], the handlers with
    the class test are the handlers of section [Methods]. *)
Lemma by_class_agrees (b64decode : str -> outcome bytes)
    (Image_open : bytes -> outcome Image) (self : ImageOCR)
    (encode_image : str) (t : trace) :
  ByClass.convert_img_to_txt (fun _ => true) b64decode Image_open self
    encode_image t
  = convert_img_to_txt b64decode Image_open self encode_image t.
Proof.
  unfold ByClass.convert_img_to_txt, convert_img_to_txt, bind, ByClass.attempt,
    attempt.
  destruct (invoke _ (b64decode encode_image) t) as [[binary_image|e] t0];
    [|reflexivity].
  destruct (invoke _ (Image_open binary_image) t0) as [[image|e] t1];
    [|reflexivity].
  reflexivity.
Qed.

(** * The Text branch on every answer of the OCR engine *)


(** * The first step as a scan of the text *)

(** The first substitution does what the scan describes. *)
Lemma echoes_removed_sub (text : str) :
  echoes_removed text (remove_prompt_echo text).
Proof.
  remember (List.length text) as n eqn:Hn. revert text Hn.
  induction n as [n IH] using lt_wf_ind. intros text Hn.
  destruct text as [|c text'].
  - constructor.
  - destruct (echo_len (c :: text')) as [k|] eqn:E.
    + destruct (echo_len_sound _ _ E) as (m & rest & Hs & Hm & _).
      rewrite Hs, (remove_prompt_echo_head m rest Hm).
      apply echoes_removed_echo; [exact Hm|].
      apply (IH (List.length rest)); [|reflexivity].
      rewrite Hn, Hs, length_app.
      pose proof (prompt_echo_not_empty m Hm). destruct m; [contradiction|].
      simpl. lia.
    + replace (remove_prompt_echo (c :: text'))
        with (c :: remove_prompt_echo text')
        by (unfold remove_prompt_echo; cbn [Re.scan]; now rewrite E).
      apply echoes_removed_keep.
      * intros m rest Hs Hm.
        rewrite Hs, (echo_len_complete m rest Hm) in E. discriminate E.
      * apply (IH (List.length text')); [|reflexivity].
        rewrite Hn. simpl. lia.
Qed.

(** The scan has one outcome. *)
Lemma echoes_removed_is_sub (text out : str) :
  echoes_removed text out -> out = remove_prompt_echo text.
Proof.
  induction 1 as [|m rest out Hm _ IH|c text out Hno _ IH].
  - reflexivity.
  - now rewrite (remove_prompt_echo_head m rest Hm).
  - unfold remove_prompt_echo. cbn [Re.scan].
    destruct (echo_len (c :: text)) as [k|] eqn:E.
    + exfalso. destruct (echo_len_sound _ _ E) as (m & rest & Hs & Hm & _).
      exact (Hno m rest Hs Hm).
    + now rewrite IH.
Qed.

(** C8, as the code has it. The method is three steps in order.  First the
    text is gone through from the left and every prompt echo is dropped: the
    three pieces of the template with any run of whitespace, or none,
    between them, wherever and however often it occurs.  Then an artifact
    [\, .] that ends the text, or that is followed only by a final newline,
    is removed.  Then the rest is wrapped in dollar signs whatever it is, so
    that an empty rest gives [$$]. *)
Theorem convert_text_to_latex_three_steps (text : str) :
  exists cleaned,
    echoes_removed text cleaned
    /\ (forall cleaned', echoes_removed text cleaned' -> cleaned' = cleaned)
    /\ _convert_text_to_latex text
       = wrap_dollars (remove_trailing_artifact cleaned)
    /\ (remove_trailing_artifact cleaned = [] ->
        _convert_text_to_latex text = lit "$$").
Proof.
  exists (remove_prompt_echo text).
  assert (E : _convert_text_to_latex text
              = wrap_dollars (remove_trailing_artifact (remove_prompt_echo text))).
  { unfold _convert_text_to_latex, wrap_dollars.
    rewrite ReFacts.sub_prompt_echo, ReFacts.sub_trailing. reflexivity. }
  split; [apply echoes_removed_sub|].
  split; [intros c' H; now apply echoes_removed_is_sub|].
  split; [exact E|].
  intros H. rewrite E, H. reflexivity.
Qed.

(** On the echo as the model prints it, the steps as the specification
    words them give what the method gives. *)
Lemma steps_as_worded_on_exact_echo :
  steps_as_worded (EXACT_ECHO ++ lit "x=1\, .") = lit "$x=1$"
  /\ _convert_text_to_latex (EXACT_ECHO ++ lit "x=1\, .") = lit "$x=1$".
Proof. split; vm_compute; reflexivity. Qed.

(** * Runs with ties, interrupts and blank pages *)

Module Runs2.

Import Demo Samples Samples2.





Lemma classificate_image_stable_max_witness :
  fst (_classificate_image tied picture [])
  = Returns (Some (lit "formula including fraction or symbols"))
  /\ index_of (lit "formula including fraction or symbols") candidate_labels
     < index_of (lit "a sentence including English") candidate_labels.
Proof.
  pose (e := entry "formula including fraction or symbols" (7 # 10)).
  assert (Hc : image_classifier tied picture candidate_labels
               = Returns tied_scores) by reflexivity.
  assert (Hfm : first_max tied_scores 1 e).
  { split; [reflexivity|]. split.
    - intros [|[|[|j]]] e' H; simpl in H;
        try (injection H as <-); try (destruct j; discriminate H);
        unfold Qle; simpl; lia.
    - intros [|[|j]] e' Hlt H; simpl in H;
        try (injection H as <-); try lia;
        unfold Qlt; simpl; lia. }
  destruct (classificate_image_stable_max tied picture tied_scores 1 e []
              Hc Hfm) as [Hsel Hord].
  split; [exact Hsel|].
  refine (Hord _ 2 (entry "a sentence including English" (7 # 10)) _ _ _).
  - intros [|[|[|j]]] [|[|[|k]]] ej ek Hlt Hj Hk Heq; simpl in Hj, Hk;
      try lia; try (destruct j; discriminate Hj);
      try (destruct k; discriminate Hk);
      injection Hj as <-; injection Hk as <-;
      try (unfold Qeq in Heq; simpl in Heq; discriminate Heq);
      vm_compute; lia.
  - reflexivity.
  - discriminate.
  - reflexivity.
Defined.

(** C6 as stated fails: the order that decides a tie is that of the list
    the classifier hands back, not that of the candidate labels.  Here two
    labels share the greatest score; the one listed first by the classifier
    is selected, although the other comes first among the candidate labels. *)
Lemma tie_goes_to_first_output :
  image_classifier reader picture candidate_labels = Returns text_scores
  /\ nth_error text_scores 1 = Some (entry "a sentence including English" (7 # 10))
  /\ nth_error text_scores 2
     = Some (entry "formula including fraction or symbols" (7 # 10))
  /\ (forall j e', nth_error text_scores j = Some e' -> (score e' <= 7 # 10)%Q)
  /\ index_of (lit "formula including fraction or symbols") candidate_labels
     < index_of (lit "a sentence including English") candidate_labels
  /\ fst (_classificate_image reader picture [])
     = Returns (Some (lit "a sentence including English"))
  /\ lit "a sentence including English"
     <> lit "formula including fraction or symbols".
Proof.
  do 3 (split; [reflexivity|]). split.
  - intros [|[|[|[|j]]]] e' H; simpl in H;
      try (injection H as <-); try (destruct j; discriminate H);
      unfold Qle; simpl; lia.
  - split; [vm_compute; lia|]. split; [reflexivity|].
    vm_compute. discriminate.
Qed.

Lemma convert_text_to_latex_three_steps_witness :
  exists cleaned,
    echoes_removed (EXACT_ECHO ++ lit "\, .") cleaned
    /\ _convert_text_to_latex (EXACT_ECHO ++ lit "\, .")
       = wrap_dollars (remove_trailing_artifact cleaned)
    /\ _convert_text_to_latex (EXACT_ECHO ++ lit "\, .") = lit "$$".
Proof.
  destruct (convert_text_to_latex_three_steps (EXACT_ECHO ++ lit "\, ."))
    as (cleaned & Hr & Hu & Hw & He).
  exists cleaned. split; [exact Hr|]. split; [exact Hw|].
  apply He.
  assert (Ha : echoes_removed (EXACT_ECHO ++ lit "\, .") (lit "\, .")).
  { apply echoes_removed_echo.
    - exists (lit " "), (lit " "). repeat split; reflexivity.
    - repeat (apply echoes_removed_keep;
              [intros m rest Hs (ws1 & ws2 & _ & _ & ->); discriminate Hs|]).
      apply echoes_removed_nil. }
  rewrite <- (Hu _ Ha). vm_compute. reflexivity.
Defined.

(** C8 as stated fails on the first two steps.  The first substitution
    removes more than the exact echo: an echo printed with no space between
    its pieces goes too.  And [$] also matches just before a final newline,
    so an artifact followed by a newline is removed although it does not end
    the text. *)
Lemma steps_as_worded_differ :
  _convert_text_to_latex
    (lit "User:Extract mathematical expressions in LaTeX formatAssistant: 0>0>500>500>y")
  = lit "$y$"
  /\ steps_as_worded
       (lit "User:Extract mathematical expressions in LaTeX formatAssistant: 0>0>500>500>y")
     = lit "$User:Extract mathematical expressions in LaTeX formatAssistant: 0>0>500>500>y$"
  /\ _convert_text_to_latex (lit "x\, ." ++ [NEWLINE])
     = lit "$x" ++ [NEWLINE] ++ lit "$"
  /\ steps_as_worded (lit "x\, ." ++ [NEWLINE])
     = lit "$x\, ." ++ [NEWLINE] ++ lit "$"
  /\ _convert_text_to_latex (lit "x\, ." ++ [NEWLINE])
     <> steps_as_worded (lit "x\, ." ++ [NEWLINE]).
Proof.
  do 4 (split; [vm_compute; reflexivity|]).
  vm_compute. discriminate.
Qed.

End Runs2.
